(** * pprof-repo: the profile store and its HTTP front controller

    A shallow embedding of [pprof-repo/main.go]: the handler state
    ([Handler]), the upload gate ([upload]), the loader ([LoadProfile]),
    the index page ([index]) and the dispatcher ([ServeHTTP]), followed
    by the properties of the design document that can be settled on it.

    Go strings are byte strings and are modelled by [string] (a list of
    8-bit [ascii]); [time.Time] values are modelled by [Z] (an instant
    on the time line), so that [t.After u] is [u < t]. *)

From Stdlib Require Import ZArith Ascii String List Lia Bool Sorted.
From stdpp Require Import base strings gmap list.

Local Open Scope Z_scope.
Local Open Scope string_scope.

(** * Go library functions used by the program *)

Module GoLib.

(** ** [strings] and [path/filepath] *)

Definition bytes (s : string) : list ascii := list_ascii_of_string s.
Definition str (l : list ascii) : string := string_of_list_ascii l.

Definition IsPathSeparator (c : ascii) : bool := Ascii.eqb c "/".

(** [strings.HasPrefix s prefix]. *)
Definition HasPrefix (s prefix : string) : bool := String.prefix prefix s.

(** [strings.HasSuffix s suffix]. *)
Definition HasSuffix (s suffix : string) : bool :=
  String.prefix (str (rev (bytes suffix))) (str (rev (bytes s))).

(** [strings.TrimSuffix s suffix]: [s] without the trailing [suffix],
    and [s] itself when it does not end in [suffix]. *)
Definition TrimSuffix (s suffix : string) : string :=
  if HasSuffix s suffix
  then str (take (length (bytes s) - length (bytes suffix))%nat (bytes s))
  else s.

(** The loop of [filepath.Base] that strips trailing separators, on the
    reversed path. *)
Fixpoint strip_separators (r : list ascii) : list ascii :=
  match r with
  | c :: r' => if IsPathSeparator c then strip_separators r' else r
  | [] => []
  end.

(** The loop of [filepath.Base] that finds the last element, on the
    reversed path: the bytes before the first separator. *)
Fixpoint until_separator (r : list ascii) : list ascii :=
  match r with
  | c :: r' => if IsPathSeparator c then [] else c :: until_separator r'
  | [] => []
  end.

(** [filepath.Base path] (Unix: no volume name). *)
Definition Base (path : string) : string :=
  match bytes path with
  | [] => "."
  | p =>
      match until_separator (strip_separators (rev p)) with
      | [] => "/"
      | e => str (rev e)
      end
  end.

(** The loop of [filepath.Ext], on the reversed path: scan from the end
    until a separator; at the first dot return the suffix from it. *)
Fixpoint ext_scan (r acc : list ascii) : list ascii :=
  match r with
  | c :: r' =>
      if IsPathSeparator c then []
      else if Ascii.eqb c "." then c :: acc
      else ext_scan r' (c :: acc)
  | [] => []
  end.

(** [filepath.Ext path]. *)
Definition Ext (path : string) : string := str (ext_scan (rev (bytes path)) []).

(** [filepath.Join dir file] for a [dir] and a [file] that are clean
    and not empty (the program joins its constant directory
    ["profiles"] with a validated name followed by [".pprof"]): the two
    elements separated by one separator. *)
Definition Join (dir file : string) : string := dir +:+ "/" +:+ file.

(** ** [regexp]

    Regular expressions over bytes, matched with Brzozowski
    derivatives.  Only whole-text matching is modelled: the one
    expression the program matches with is anchored at both ends
    ([^...$], and [$] in Go's syntax without the [m] flag is the end of
    the text). *)

Inductive regex : Type :=
| ReNone                                   (* matches nothing *)
| ReEps                                    (* the empty string *)
| ReClass (ranges : list (ascii * ascii))  (* [lo-hi...] *)
| ReCat (r1 r2 : regex)
| ReAlt (r1 r2 : regex)
| ReStar (r : regex).

(** [r+] is [rr*]. *)
Definition RePlus (r : regex) : regex := ReCat r (ReStar r).

Definition in_range (c : ascii) (lohi : ascii * ascii) : bool :=
  (N_of_ascii (fst lohi) <=? N_of_ascii c)%N && (N_of_ascii c <=? N_of_ascii (snd lohi))%N.

Definition in_class (ranges : list (ascii * ascii)) (c : ascii) : bool :=
  existsb (in_range c) ranges.

Fixpoint nullable (r : regex) : bool :=
  match r with
  | ReNone => false
  | ReEps => true
  | ReClass _ => false
  | ReCat r1 r2 => nullable r1 && nullable r2
  | ReAlt r1 r2 => nullable r1 || nullable r2
  | ReStar _ => true
  end.

Fixpoint deriv (c : ascii) (r : regex) : regex :=
  match r with
  | ReNone => ReNone
  | ReEps => ReNone
  | ReClass ranges => if in_class ranges c then ReEps else ReNone
  | ReCat r1 r2 =>
      if nullable r1
      then ReAlt (ReCat (deriv c r1) r2) (deriv c r2)
      else ReCat (deriv c r1) r2
  | ReAlt r1 r2 => ReAlt (deriv c r1) (deriv c r2)
  | ReStar r1 => ReCat (deriv c r1) (ReStar r1)
  end.

(** [MatchString] of the anchored expression [^r$]. *)
Fixpoint MatchString (r : regex) (s : string) : bool :=
  match s with
  | EmptyString => nullable r
  | String c s' => MatchString (deriv c r) s'
  end.

End GoLib.

Import GoLib.

(** * Data model *)

(** [time.Time]: an instant; [t.After u]. *)
Definition After (t u : Z) : bool := (u <? t)%Z.

Record ProfileInfo : Type := { Name : string; ModTime : Z }.

(** [http.ServeMux], as far as the program uses it: the set of
    registered patterns.  The handlers behind the patterns belong to
    the visualization engine and are not inspected. *)
Abbreviation ServeMux := (gset string).

Record Handler : Type := {
  UploadToken : string;
  ProfilesDir : string;
  ProfileMux : ServeMux;
  Profiles : list ProfileInfo
}.

(** A file of the catalog directory: its bytes and its modification
    time. *)
Record File : Type := { data : string; mtime : Z }.

Abbreviation FS := (gmap string File).

(** What the operating system decides during one call: the clock, and
    which of the fallible system calls fail.  [copy_err = Some n]:
    [io.Copy] fails after [n] bytes. *)
Record IO : Type := {
  now : Z;
  openfile_err : bool;
  copy_err : option nat;
  stat_err : bool;
  open_err : bool
}.

Inductive error : Type := ErrStat | ErrOpen | ErrParse | ErrDriver.

(** How a call of [LoadProfile] ends: it returns ([err = None] is Go's
    [nil]) or it panics; either way the handler it leaves behind. *)
Inductive outcome : Type :=
| Returned (err : option error) (h : Handler)
| Panicked (h : Handler).

Record Request : Type := {
  Method : string;
  URL_Path : string;
  Header : gmap string string;
  Form : gmap string string;
  MultipartFiles : gmap string string
}.

(** [r.Header.Get key], [r.FormValue key]: the empty string when the
    key is absent.  [r.FormFile key]: an error when it is absent. *)
Definition Header_Get (r : Request) (key : string) : string := default "" (Header r !! key).
Definition FormValue (r : Request) (key : string) : string := default "" (Form r !! key).
Definition FormFile (r : Request) (key : string) : option string := MultipartFiles r !! key.

Record ResponseWriter : Type := { status : option nat; body : string }.

Definition StatusOK : nat := 200.
Definition StatusCreated : nat := 201.
Definition StatusBadRequest : nat := 400.
Definition StatusUnauthorized : nat := 401.
Definition StatusNotFound : nat := 404.
Definition StatusInternalServerError : nat := 500.

Definition MethodGet : string := "GET".
Definition MethodPost : string := "POST".

(** A fresh response: no header written, no body. *)
Definition new_response : ResponseWriter := {| status := None; body := "" |}.

(** [w.WriteHeader code]; a second call does not change the status. *)
Definition WriteHeader (w : ResponseWriter) (code : nat) : ResponseWriter :=
  match status w with
  | None => {| status := Some code; body := body w |}
  | Some _ => w
  end.

(** [fmt.Fprintf w ...] with the formatted text [s]: the first write
    sends the header with [200 OK] when none was written. *)
Definition Fprintf (w : ResponseWriter) (s : string) : ResponseWriter :=
  {| status := Some (default StatusOK (status w)); body := body w +:+ s |}.

(** The status the client receives: the server sends [200 OK] for a
    handler that returns without writing anything. *)
Definition sent_status (w : ResponseWriter) : nat := default StatusOK (status w).

(** How the server ends a request: the handler returned and the response
    is sent, or the handler panicked; [net/http] recovers the panic of a
    request goroutine and drops the connection without a response. *)
Inductive served : Type :=
| Replied (w : ResponseWriter)
| Aborted.

(** The state a request runs against: the catalog directory and the
    handler. *)
Record World : Type := { disk : FS; handler : Handler }.

(** [mux.Handle pattern handler]: registers the pattern, and panics
    ([None]) when the pattern is registered already. *)
Definition Handle (mux : ServeMux) (pattern : string) : option ServeMux :=
  if decide (pattern ∈ mux) then None else Some ({[ pattern ]} ∪ mux).

(** [profileNameRegexp]: [^[a-zA-Z0-9_\-]+$]. *)
Definition name_class : list (ascii * ascii) :=
  [("a", "z"); ("A", "Z"); ("0", "9"); ("_", "_"); ("-", "-")]%char.

Definition profileNameRegexp : regex := RePlus (ReClass name_class).

(** [sort.Slice s less]: [s] rearranged so that no element is [less]
    than one before it.  Go's sort is not stable; the order it gives to
    elements that compare equal is not specified, and this model (an
    insertion sort) fixes one.  *)
Section Sort.
Context {A : Type} (less : A -> A -> bool).

Fixpoint sort_insert (x : A) (l : list A) : list A :=
  match l with
  | [] => [x]
  | y :: l' => if less x y then x :: l else y :: sort_insert x l'
  end.

Definition sort_Slice (l : list A) : list A := foldr sort_insert [] l.

End Sort.

(** The double quote character of the index page's markup, and the
    newline that ends the program's responses. *)
Definition dq : string := String (ascii_of_nat 34) EmptyString.
Definition nl : string := String (ascii_of_nat 10) EmptyString.

(** * The program *)

(** The handler [run] builds. *)
Definition new_handler (uploadToken : string) : Handler :=
  {| UploadToken := uploadToken; ProfilesDir := "profiles";
     ProfileMux := ∅; Profiles := [] |}.

(** The route pattern of one handler of a profile. *)
Definition route (profileID handlerPath : string) : string :=
  "/profiles/" +:+ profileID +:+ handlerPath.

(** The [HTTPServer] callback of [LoadProfile]: registers every handler
    path under the profile's prefix.  [None]: [Handle] panicked; the
    patterns registered before stay registered. *)
Fixpoint mount (mux : ServeMux) (profileID : string) (paths : list string)
  : ServeMux * bool :=
  match paths with
  | [] => (mux, true)
  | handlerPath :: rest =>
      match Handle mux (route profileID handlerPath) with
      | Some mux' => mount mux' profileID rest
      | None => (mux, false)
      end
  end.

Definition less (a b : ProfileInfo) : bool := After (ModTime a) (ModTime b).

Definition profileID_of (path : string) : string := TrimSuffix (Base path) (Ext path).

Definition with_mux (h : Handler) (mux : ServeMux) : Handler :=
  {| UploadToken := UploadToken h; ProfilesDir := ProfilesDir h;
     ProfileMux := mux; Profiles := Profiles h |}.

Definition with_profiles (h : Handler) (ps : list ProfileInfo) : Handler :=
  {| UploadToken := UploadToken h; ProfilesDir := ProfilesDir h;
     ProfileMux := ProfileMux h; Profiles := ps |}.

Section Program.

(** The external collaborators.  [Parse] is [profile.Parse]: the parsed
    profile, or an error.  [PProf] is [driver.PProf] run with the
    options of [LoadProfile] (the web interface is always requested): an
    error, or one call of the [HTTPServer] callback with a handler map
    whose keys are the given paths.  [Format] is
    [t.Format(time.RFC3339)].  [mux_ServeHTTP] is the response of
    [ServeMux.ServeHTTP] with the given patterns registered. *)
Variable Profile : Type.
Variable Parse : string -> option Profile.
Variable PProf : Profile -> option (gset string).
Variable Format : Z -> string.
Variable mux_ServeHTTP : ServeMux -> ResponseWriter -> Request -> ResponseWriter.

Definition LoadProfile (fs : FS) (io : IO) (h : Handler) (path : string) : outcome :=
  if stat_err io then Returned (Some ErrStat) h else
  match fs !! path with
  | None => Returned (Some ErrStat) h
  | Some fileInfo =>
      if open_err io then Returned (Some ErrOpen) h else
      let profileID := profileID_of path in
      match Parse (data fileInfo) with
      | None => Returned (Some ErrParse) h
      | Some pprof =>
          match PProf pprof with
          | None => Returned (Some ErrDriver) h
          | Some handlers =>
              match mount (ProfileMux h) profileID (elements handlers) with
              | (mux, false) => Panicked (with_mux h mux)
              | (mux, true) =>
                  let profiles :=
                    (Profiles h ++ [{| Name := profileID; ModTime := mtime fileInfo |}])%list in
                  Returned None (with_profiles (with_mux h mux) (sort_Slice less profiles))
              end
          end
      end
  end.

Definition index_entry (profile : ProfileInfo) : string :=
  "<div><a href=" +:+ dq +:+ "/profiles/" +:+ Name profile +:+ dq +:+ ">"
  +:+ Name profile +:+ " (" +:+ Format (ModTime profile) +:+ ")</a></div>".

Definition index (h : Handler) (w : ResponseWriter) : ResponseWriter :=
  let w := Fprintf w "<html><body>" in
  let w := foldl (fun w profile => Fprintf w (index_entry profile)) w (Profiles h) in
  Fprintf w ("</body></html>" +:+ nl).

Definition profiles (h : Handler) (w : ResponseWriter) (r : Request) : ResponseWriter :=
  mux_ServeHTTP (ProfileMux h) w r.

Definition upload (W : World) (io : IO) (w : ResponseWriter) (r : Request)
  : World * served :=
  let h := handler W in
  if negb (String.eqb (Header_Get r "x-upload-token") (UploadToken h)) then
    (W, Replied (WriteHeader w StatusUnauthorized))
  else
  let profileName := FormValue r "name" in
  if negb (MatchString profileNameRegexp profileName) then
    (W, Replied (WriteHeader w StatusBadRequest))
  else
  let profilePath := Join (ProfilesDir h) (profileName +:+ ".pprof") in
  if openfile_err io then
    (W, Replied (WriteHeader w StatusInternalServerError))
  else
  let opened := <[ profilePath := {| data := ""; mtime := now io |} ]> (disk W) in
  match FormFile r "pprof" with
  | None =>
      ({| disk := opened; handler := h |},
       Replied (WriteHeader w StatusInternalServerError))
  | Some file =>
      match copy_err io with
      | Some n =>
          ({| disk := <[ profilePath := {| data := str (take n (bytes file)); mtime := now io |} ]> opened;
              handler := h |},
           Replied (WriteHeader w StatusInternalServerError))
      | None =>
          let written := <[ profilePath := {| data := file; mtime := now io |} ]> opened in
          match LoadProfile written io h profilePath with
          | Returned (Some _) h' =>
              ({| disk := written; handler := h' |},
               Replied (WriteHeader w StatusInternalServerError))
          | Returned None h' =>
              ({| disk := written; handler := h' |},
               Replied (Fprintf (WriteHeader w StatusCreated)
                          ("/profiles/" +:+ profileName +:+ nl)))
          | Panicked h' =>
              ({| disk := written; handler := h' |}, Aborted)
          end
      end
  end.

Definition ServeHTTP (W : World) (io : IO) (w : ResponseWriter) (r : Request)
  : World * served :=
  if String.eqb (URL_Path r) "/" then
    if String.eqb (Method r) MethodGet then (W, Replied (index (handler W) w))
    else (W, Replied w)
  else if String.eqb (URL_Path r) "/upload" then
    if String.eqb (Method r) MethodPost then upload W io w r
    else (W, Replied w)
  else if HasPrefix (URL_Path r) "/profiles/" then
    (W, Replied (profiles (handler W) w r))
  else (W, Replied (WriteHeader w StatusNotFound)).

(** The loop of [run] over the paths of the catalog directory: a load
    that returns an error is logged and the loop goes on; a panic ends
    the process.  [io] gives the system's decisions for each path. *)
Fixpoint load_all (fs : FS) (io : string -> IO) (h : Handler) (paths : list string)
  : outcome :=
  match paths with
  | [] => Returned None h
  | path :: rest =>
      match LoadProfile fs (io path) h path with
      | Returned _ h' => load_all fs io h' rest
      | Panicked h' => Panicked h'
      end
  end.

End Program.

Arguments LoadProfile {Profile} Parse PProf fs io h path.
Arguments upload {Profile} Parse PProf W io w r.
Arguments ServeHTTP {Profile} Parse PProf Format mux_ServeHTTP W io w r.
Arguments load_all {Profile} Parse PProf fs io h paths.

(** The handler a call leaves behind, however the call ended. *)
Definition left_by (o : outcome) : Handler :=
  match o with
  | Returned _ h => h
  | Panicked h => h
  end.

(** Requests served one after the other; every request comes with the
    system's decisions for it.  The responses are collected in order. *)
Fixpoint serve_all {Profile : Type} (Parse : string -> option Profile)
  (PProf : Profile -> option (gset string)) (Format : Z -> string)
  (mux_ServeHTTP : ServeMux -> ResponseWriter -> Request -> ResponseWriter)
  (W : World) (rs : list (IO * Request)) : World * list served :=
  match rs with
  | [] => (W, [])
  | (io, r) :: rest =>
      let '(W1, out) := ServeHTTP Parse PProf Format mux_ServeHTTP W io new_response r in
      let '(W2, outs) := serve_all Parse PProf Format mux_ServeHTTP W1 rest in
      (W2, out :: outs)
  end.

(** * The catalog update of [LoadProfile] under interleaving

    [LoadProfile] updates [h.Profiles] in two statements and takes no
    lock ([Handler] has no mutex): [h.Profiles = append(h.Profiles, e)]
    reads the slice and then stores the extended one, and [sort.Slice]
    sorts what is stored.  A thread is a call of [LoadProfile] that
    has reached the update with its entry; a schedule picks the thread
    that makes the next step.  The sort is taken as one step. *)

Module Interleaving.

Inductive thread : Type :=
| AtAppend (e : ProfileInfo)                         (* before the append *)
| AtStore (e : ProfileInfo) (seen : list ProfileInfo) (* slice read, not yet stored *)
| AtSort                                              (* before sort.Slice *)
| Finished.

Definition step (shared : list ProfileInfo) (t : thread) : list ProfileInfo * thread :=
  match t with
  | AtAppend e => (shared, AtStore e shared)
  | AtStore e seen => ((seen ++ [e])%list, AtSort)
  | AtSort => (sort_Slice less shared, Finished)
  | Finished => (shared, Finished)
  end.

Fixpoint run (schedule : list nat) (shared : list ProfileInfo) (threads : list thread)
  : list ProfileInfo * list thread :=
  match schedule with
  | [] => (shared, threads)
  | i :: rest =>
      match threads !! i with
      | Some t =>
          let '(shared', t') := step shared t in
          run rest shared' (<[ i := t' ]> threads)
      | None => run rest shared threads
      end
  end.

End Interleaving.

(** * The work of the token comparison

    Line 114 compares the header with the secret by Go's [!=] on
    strings: unequal lengths decide at once, otherwise the bytes are
    compared until the first difference.  [neq_work] counts the bytes
    compared; its first component is the result of [!=]. *)



(** * A small instance of the external collaborators

    A parser that accepts every non-empty file, an engine that serves
    two views, and a router that finds nothing; used to run the program
    on concrete inputs. *)

Module Toy.

Definition Parse (content : string) : option string :=
  if String.eqb content "" then None else Some content.

Definition PProf (p : string) : option (gset string) := Some {[ "/"; "/top" ]}.

Definition Format (t : Z) : string := "t".

Definition mux_ServeHTTP (mux : ServeMux) (w : ResponseWriter) (r : Request)
  : ResponseWriter := WriteHeader w StatusNotFound.

Definition io : IO :=
  {| now := 7; openfile_err := false; copy_err := None;
     stat_err := false; open_err := false |}.

Definition h0 : Handler := new_handler "pprof".

Definition post_upload (token name : string) (file : option string) : Request :=
  {| Method := MethodPost; URL_Path := "/upload";
     Header := {[ "x-upload-token" := token ]};
     Form := {[ "name" := name ]};
     MultipartFiles :=
       match file with
       | Some f => {[ "pprof" := f ]}
       | None => ∅
       end |}.

Definition one_file : FS := {[ "profiles/a.pprof" := {| data := "x"; mtime := 1 |} ]}.

Definition listing : list string := ["profiles/a.pprof"].

(** The handler after one startup loop over [one_file]. *)
Definition h1 : Handler :=
  left_by (load_all Parse PProf one_file (fun _ => io) h0 listing).

Definition empty_world : World := {| disk := ∅; handler := h0 |}.

(** A directory that already holds the snapshot [svc-a]. *)
Definition stored_world : World :=
  {| disk := {[ "profiles/svc-a.pprof" := {| data := "old"; mtime := 1 |} ]};
     handler := h0 |}.

Definition two_uploads : list (IO * Request) :=
  [(io, post_upload "pprof" "svc-a" (Some "abc"));
   (io, post_upload "pprof" "svc-b" (Some "abc"))].

Definition entry_a : ProfileInfo := {| Name := "a"; ModTime := 1 |}.
Definition entry_b : ProfileInfo := {| Name := "b"; ModTime := 2 |}.

End Toy.

(** * Properties of the library functions *)

Section StringFacts.

Lemma bytes_app (a b : string) : bytes (a +:+ b) = (bytes a ++ bytes b)%list.
Proof. unfold bytes. induction a as [|c a IH]; simpl; [done|]. by rewrite IH. Qed.

Lemma str_bytes (s : string) : str (bytes s) = s.
Proof. apply string_of_list_ascii_of_string. Qed.

Lemma bytes_str (l : list ascii) : bytes (str l) = l.
Proof. apply list_ascii_of_string_of_list_ascii. Qed.

Lemma str_app (l k : list ascii) : str (l ++ k) = str l +:+ str k.
Proof. unfold str. induction l as [|c l IH]; simpl; [done|]. by rewrite IH. Qed.

Lemma length_bytes (s : string) : length (bytes s) = String.length s.
Proof. unfold bytes. induction s as [|c s IH]; simpl; [done|]. by rewrite IH. Qed.

Lemma append_inv_head (a b c : string) : a +:+ b = a +:+ c -> b = c.
Proof. induction a as [|x a IH]; simpl; [done|]. intros [=]. auto. Qed.

Lemma until_separator_app (l r : list ascii) :
  forallb (fun c => negb (IsPathSeparator c)) l = true ->
  until_separator (l ++ "/"%char :: r) = l.
Proof.
  induction l as [|c l IH]; simpl; [done|].
  intros [Hc Hl]%andb_true_iff. destruct (IsPathSeparator c); [done|].
  by rewrite IH.
Qed.

End StringFacts.

(** The identifier of a snapshot stored under a name without separator
    is the name. *)
Lemma profileID_of_Join (dir name : string) :
  forallb (fun c => negb (IsPathSeparator c)) (bytes name) = true ->
  profileID_of (Join dir (name +:+ ".pprof")) = name.
Proof.
  intros Hname.
  assert (Hrev : rev (bytes (Join dir (name +:+ ".pprof")))
                 = (bytes "forpp." ++ rev (bytes name) ++ "/"%char :: rev (bytes dir))%list).
  { unfold Join. rewrite !bytes_app, !rev_app_distr. simpl. by rewrite <- !app_assoc. }
  assert (HB : Base (Join dir (name +:+ ".pprof")) = name +:+ ".pprof").
  { unfold Base.
    destruct (bytes (Join dir (name +:+ ".pprof"))) eqn:E.
    { apply (f_equal (@length _)) in E. unfold Join in E.
      rewrite !bytes_app, !length_app in E. simpl in E. lia. }
    rewrite Hrev.
    change (bytes "forpp.") with ["f"; "o"; "r"; "p"; "p"; "."]%char.
    cbn [app strip_separators IsPathSeparator Ascii.eqb Bool.eqb].
    cbn [until_separator IsPathSeparator Ascii.eqb Bool.eqb].
    rewrite until_separator_app.
    2:{ rewrite forallb_forall in *. intros c Hc. by apply Hname, in_rev. }
    cbn [rev]. rewrite rev_involutive, <- !app_assoc. simpl.
    rewrite str_app, str_bytes. done. }
  assert (HE : Ext (Join dir (name +:+ ".pprof")) = ".pprof").
  { unfold Ext. rewrite Hrev. reflexivity. }
  unfold profileID_of. rewrite HB, HE. unfold TrimSuffix, HasSuffix.
  rewrite bytes_app, rev_app_distr.
  simpl. replace (String.prefix "" _) with true by (by destruct (str _)).
  rewrite length_app, take_app_length'; [apply str_bytes|simpl; lia].
Qed.

Section RegexFacts.

Lemma MatchString_none (s : string) : MatchString ReNone s = false.
Proof. induction s; simpl; auto. Qed.

Lemma MatchString_cat_none (r : regex) (s : string) :
  MatchString (ReCat ReNone r) s = false.
Proof. induction s; simpl; auto. Qed.

Lemma MatchString_alt (r1 r2 : regex) (s : string) :
  MatchString (ReAlt r1 r2) s = MatchString r1 s || MatchString r2 s.
Proof. revert r1 r2. induction s as [|c s IH]; intros; simpl; auto. Qed.

Lemma MatchString_cat_eps (r : regex) (s : string) :
  MatchString (ReCat ReEps r) s = MatchString r s.
Proof.
  destruct s as [|c s]; simpl; [done|].
  by rewrite MatchString_alt, MatchString_cat_none.
Qed.

Lemma MatchString_star_class (cl : list (ascii * ascii)) (s : string) :
  MatchString (ReStar (ReClass cl)) s = forallb (in_class cl) (bytes s).
Proof.
  induction s as [|c s IH]; simpl; [done|].
  destruct (in_class cl c); simpl.
  - by rewrite MatchString_cat_eps.
  - apply MatchString_cat_none.
Qed.

Lemma MatchString_plus_class (cl : list (ascii * ascii)) (s : string) :
  MatchString (RePlus (ReClass cl)) s
  = negb (String.eqb s "") && forallb (in_class cl) (bytes s).
Proof.
  destruct s as [|c s]; simpl; [done|].
  destruct (in_class cl c); simpl.
  - by rewrite MatchString_cat_eps, MatchString_star_class.
  - apply MatchString_cat_none.
Qed.

End RegexFacts.

(** The bytes of the class [[a-zA-Z0-9_\-]], by their codes. *)
Definition name_byte (c : ascii) : Prop :=
  let n := N_of_ascii c in
  (97 <= n <= 122 \/ 65 <= n <= 90 \/ 48 <= n <= 57 \/ n = 95 \/ n = 45)%N.

Lemma in_name_class (c : ascii) : in_class name_class c = true <-> name_byte c.
Proof.
  unfold in_class, name_class, in_range, name_byte. cbn [existsb fst snd].
  change (N_of_ascii "a") with 97%N. change (N_of_ascii "z") with 122%N.
  change (N_of_ascii "A") with 65%N. change (N_of_ascii "Z") with 90%N.
  change (N_of_ascii "0") with 48%N. change (N_of_ascii "9") with 57%N.
  change (N_of_ascii "_") with 95%N. change (N_of_ascii "-") with 45%N.
  rewrite !orb_true_iff, !andb_true_iff, !N.leb_le. lia.
Qed.

Lemma name_byte_not_separator (c : ascii) : name_byte c -> IsPathSeparator c = false.
Proof.
  unfold IsPathSeparator. intros H. destruct (Ascii.eqb_spec c "/"); [|done].
  subst c. unfold name_byte in H. change (N_of_ascii "/") with 47%N in H. lia.
Qed.

Lemma valid_name_no_separator (name : string) :
  MatchString profileNameRegexp name = true ->
  forallb (fun c => negb (IsPathSeparator c)) (bytes name) = true.
Proof.
  unfold profileNameRegexp. rewrite MatchString_plus_class.
  intros [_ H]%andb_true_iff. rewrite forallb_forall in *. intros c Hc.
  by rewrite name_byte_not_separator; [|apply in_name_class, H].
Qed.

(** ** [sort.Slice] with [less] *)

Section SortFacts.

Definition descending : list ProfileInfo -> Prop :=
  StronglySorted (fun a b => ModTime b <= ModTime a).

Lemma sort_insert_Permutation (x : ProfileInfo) (l : list ProfileInfo) :
  Permutation (sort_insert less x l) (x :: l).
Proof.
  induction l as [|y l IH]; simpl; [done|].
  destruct (less x y); [done|]. rewrite IH. apply perm_swap.
Qed.

Lemma sort_Slice_Permutation (l : list ProfileInfo) :
  Permutation (sort_Slice less l) l.
Proof.
  induction l as [|x l IH]; simpl; [done|].
  rewrite sort_insert_Permutation. by constructor.
Qed.

Lemma sort_insert_descending (x : ProfileInfo) (l : list ProfileInfo) :
  descending l -> descending (sort_insert less x l).
Proof.
  unfold descending. induction 1 as [|y l Hl IH Hy]; simpl.
  - repeat constructor.
  - unfold less at 1, After. destruct (Z.ltb_spec (ModTime y) (ModTime x)).
    + constructor; [by constructor|]. constructor; [lia|].
      eapply Forall_impl; [exact Hy|]. simpl. intros; lia.
    + constructor; [done|].
      eapply Permutation_Forall; [symmetry; apply sort_insert_Permutation|].
      constructor; [lia|done].
Qed.

Lemma sort_Slice_descending (l : list ProfileInfo) : descending (sort_Slice less l).
Proof.
  induction l as [|x l IH]; simpl; [constructor|]. by apply sort_insert_descending.
Qed.


End SortFacts.

(** * Properties of the program *)

Section MountFacts.

Lemma route_inj (id p q : string) : route id p = route id q -> p = q.
Proof. unfold route. intros H. by do 2 apply append_inv_head in H. Qed.

Lemma mount_mono (mux mux' : ServeMux) (id : string) (paths : list string) (b : bool) :
  mount mux id paths = (mux', b) -> mux ⊆ mux'.
Proof.
  revert mux. induction paths as [|q paths IH]; simpl; intros mux H.
  - by inversion H.
  - unfold Handle in H. case_decide.
    + by inversion H.
    + apply IH in H. set_solver.
Qed.

Lemma mount_done (mux mux' : ServeMux) (id : string) (paths : list string) :
  mount mux id paths = (mux', true) ->
  forall p, p ∈ paths -> route id p ∈ mux' /\ route id p ∉ mux.
Proof.
  revert mux. induction paths as [|q paths IH]; simpl; intros mux H p Hp.
  - by apply elem_of_nil in Hp.
  - unfold Handle in H. case_decide; [by inversion H|].
    apply elem_of_cons in Hp as [->|Hp].
    + split; [|done]. apply mount_mono in H. set_solver.
    + destruct (IH _ H p Hp). split; [done|set_solver].
Qed.

Lemma mount_conflict (mux : ServeMux) (id : string) (paths : list string) (p : string) :
  p ∈ paths -> route id p ∈ mux -> exists mux', mount mux id paths = (mux', false).
Proof.
  revert mux. induction paths as [|q paths IH]; simpl; intros mux Hp Hin.
  - by apply elem_of_nil in Hp.
  - unfold Handle. case_decide; [eauto|].
    apply elem_of_cons in Hp as [->|Hp]; [done|].
    apply IH; [done|set_solver].
Qed.

Lemma mount_panic_inv (mux mux' : ServeMux) (id : string) (paths : list string) :
  NoDup paths -> mount mux id paths = (mux', false) ->
  exists p, p ∈ paths /\ route id p ∈ mux.
Proof.
  revert mux. induction paths as [|q paths IH]; simpl; intros mux Hnd H.
  - by inversion H.
  - apply NoDup_cons in Hnd as [Hq Hnd]. unfold Handle in H. case_decide.
    + exists q. split; [left|done].
    + destruct (IH _ Hnd H) as (p & Hp & Hin). exists p. split; [by right|].
      apply elem_of_union in Hin as [Hin%elem_of_singleton|Hin]; [|done].
      apply route_inj in Hin. by subst.
Qed.

End MountFacts.

Section Properties.

Context {Profile : Type}.
Variable Parse : string -> option Profile.
Variable PProf : Profile -> option (gset string).
Variable Format : Z -> string.
Variable mux_ServeHTTP : ServeMux -> ResponseWriter -> Request -> ResponseWriter.

(** The entry a successful load of [path] adds for the file [f]. *)
Definition entry_of (path : string) (f : File) : ProfileInfo :=
  {| Name := profileID_of path; ModTime := mtime f |}.

Local Ltac returns_error why :=
  left; eexists; split; [reflexivity|why].

(** The three ways a call of [LoadProfile] ends. *)
Lemma LoadProfile_cases (fs : FS) (io : IO) (h : Handler) (path : string) :
  (exists e, LoadProfile Parse PProf fs io h path = Returned (Some e) h /\
     (stat_err io = true \/ fs !! path = None \/ open_err io = true \/
      exists f, fs !! path = Some f /\
        (Parse (data f) = None \/
         exists pprof, Parse (data f) = Some pprof /\ PProf pprof = None)))
  \/
  (exists f pprof handlers mux b,
     stat_err io = false /\ open_err io = false /\
     fs !! path = Some f /\ Parse (data f) = Some pprof /\
     PProf pprof = Some handlers /\
     mount (ProfileMux h) (profileID_of path) (elements handlers) = (mux, b) /\
     LoadProfile Parse PProf fs io h path =
       if b
       then Returned None
              (with_profiles (with_mux h mux)
                 (sort_Slice less (Profiles h ++ [entry_of path f])%list))
       else Panicked (with_mux h mux)).
Proof.
  unfold LoadProfile.
  destruct (stat_err io) eqn:Hs; [returns_error ltac:(by left)|].
  destruct (fs !! path) as [f|] eqn:Hf; [|returns_error ltac:(by right; left)].
  destruct (open_err io) eqn:Ho; [returns_error ltac:(by do 2 right; left)|].
  destruct (Parse (data f)) as [pprof|] eqn:Hp;
    [|returns_error ltac:(do 3 right; exists f; split; [done|by left])].
  destruct (PProf pprof) as [handlers|] eqn:Hd;
    [|returns_error ltac:(do 3 right; exists f; split; [done|right; by exists pprof])].
  destruct (mount _ _ _) as [mux b] eqn:Hm.
  right. exists f, pprof, handlers, mux, b. by destruct b.
Qed.

(** What the handlers reached by loading look like.  [loaded tok log h]:
    starting from the handler that [run] builds, a sequence of calls of
    [LoadProfile] (on any file system, each ending in any of the three
    ways) has led to [h], and [log] lists the entries of the calls that
    returned without error, latest first. *)
Inductive loaded (tok : string) : list ProfileInfo -> Handler -> Prop :=
| loaded_new : loaded tok [] (new_handler tok)
| loaded_ok log h fs io path f h' :
    loaded tok log h -> fs !! path = Some f ->
    LoadProfile Parse PProf fs io h path = Returned None h' ->
    loaded tok (entry_of path f :: log) h'
| loaded_error log h fs io path e h' :
    loaded tok log h ->
    LoadProfile Parse PProf fs io h path = Returned (Some e) h' ->
    loaded tok log h'
| loaded_panic log h fs io path h' :
    loaded tok log h ->
    LoadProfile Parse PProf fs io h path = Panicked h' ->
    loaded tok log h'.

(** Every entry of the catalog has its route for the handler path
    [p0] registered. *)
Definition mounted (p0 : string) (h : Handler) : Prop :=
  forall e, e ∈ Profiles h -> route (Name e) p0 ∈ ProfileMux h.

Lemma LoadProfile_ok_inv (fs : FS) (io : IO) (h h' : Handler) (path : string) :
  LoadProfile Parse PProf fs io h path = Returned None h' ->
  exists f pprof handlers,
    fs !! path = Some f /\ Parse (data f) = Some pprof /\
    PProf pprof = Some handlers /\
    Profiles h' = sort_Slice less (Profiles h ++ [entry_of path f])%list /\
    ProfileMux h ⊆ ProfileMux h' /\
    UploadToken h' = UploadToken h /\ ProfilesDir h' = ProfilesDir h /\
    forall p, p ∈ handlers ->
      route (profileID_of path) p ∈ ProfileMux h' /\
      route (profileID_of path) p ∉ ProfileMux h.
Proof.
  intros H.
  destruct (LoadProfile_cases fs io h path) as [(e & He & _)|(f & pprof & hs & mux & b & Hc)];
    [congruence|].
  destruct Hc as (_ & _ & Hf & Hp & Hd & Hm & HL). rewrite HL in H.
  destruct b; [|done]. inversion H; subst h'; clear H. simpl.
  exists f, pprof, hs. repeat split; try done.
  - by eapply mount_mono.
  - eapply mount_done; [done|]. by apply elem_of_elements.
  - eapply mount_done; [done|]. by apply elem_of_elements.
Qed.

Lemma LoadProfile_error_inv (fs : FS) (io : IO) (h h' : Handler) (path : string) (e : error) :
  LoadProfile Parse PProf fs io h path = Returned (Some e) h' -> h' = h.
Proof.
  intros H.
  destruct (LoadProfile_cases fs io h path) as [(e' & He & _)|(f & pprof & hs & mux & b & Hc)].
  - congruence.
  - destruct Hc as (_ & _ & _ & _ & _ & _ & HL). rewrite HL in H. by destruct b.
Qed.

Lemma LoadProfile_panic_inv (fs : FS) (io : IO) (h h' : Handler) (path : string) :
  LoadProfile Parse PProf fs io h path = Panicked h' ->
  Profiles h' = Profiles h /\ ProfileMux h ⊆ ProfileMux h' /\
  UploadToken h' = UploadToken h /\ ProfilesDir h' = ProfilesDir h /\
  stat_err io = false /\ open_err io = false /\
  exists f pprof handlers p,
    fs !! path = Some f /\ Parse (data f) = Some pprof /\
    PProf pprof = Some handlers /\ p ∈ handlers /\
    route (profileID_of path) p ∈ ProfileMux h.
Proof.
  intros H.
  destruct (LoadProfile_cases fs io h path) as [(e & He & _)|(f & pprof & hs & mux & b & Hc)];
    [congruence|].
  destruct Hc as (Hs & Ho & Hf & Hp & Hd & Hm & HL). rewrite HL in H.
  destruct b; [done|]. inversion H; subst h'; clear H. simpl.
  repeat split; try done; [by eapply mount_mono|].
  destruct (mount_panic_inv _ _ _ _ (NoDup_elements hs) Hm) as (p & Hp' & Hin).
  exists f, pprof, hs, p. repeat split; try done. by apply elem_of_elements.
Qed.


Section CommonRoute.

(** Every handler map the engine passes has the path [p0] (pprof's
    web interface always has its root page). *)
Variable p0 : string.
Hypothesis engine_route : forall pprof handlers, PProf pprof = Some handlers -> p0 ∈ handlers.

Lemma LoadProfile_keeps_ids (fs : FS) (io : IO) (h : Handler) (path : string) :
  mounted p0 h -> NoDup (Name <$> Profiles h) ->
  let h' := left_by (LoadProfile Parse PProf fs io h path) in
  mounted p0 h' /\ NoDup (Name <$> Profiles h').
Proof.
  intros Hm Hnd. simpl.
  destruct (LoadProfile Parse PProf fs io h path) as [[e|] h'|h'] eqn:HL; simpl.
  - apply LoadProfile_error_inv in HL. by subst.
  - apply LoadProfile_ok_inv in HL as (f & pprof & hs & _ & _ & Hd & HP & Hsub & _ & _ & Hr).
    destruct (Hr p0 (engine_route _ _ Hd)) as [Hin Hfresh].
    assert (Hperm : Permutation (Profiles h') (entry_of path f :: Profiles h)).
    { rewrite HP, sort_Slice_Permutation. symmetry. apply Permutation_cons_append. }
    split.
    + intros e He. rewrite Hperm in He. apply elem_of_cons in He as [->|He]; [done|].
      apply Hsub. by apply Hm.
    + rewrite Hperm, fmap_cons. apply NoDup_cons. split; [|done].
      intros (e & Hname & He)%list_elem_of_fmap. apply Hfresh.
      simpl in Hname. rewrite Hname. by apply Hm.
  - apply LoadProfile_panic_inv in HL as (HP & Hsub & _). rewrite HP. split; [|done].
    intros e He. rewrite HP in He. apply Hsub. by apply Hm.
Qed.

Lemma loaded_ids (tok : string) (log : list ProfileInfo) (h : Handler) :
  loaded tok log h -> mounted p0 h /\ NoDup (Name <$> Profiles h).
Proof.
  induction 1 as [|log h fs io path f h' _ [IHm IHn] Hf HL
                  |log h fs io path e h' _ [IHm IHn] HL|log h fs io path h' _ [IHm IHn] HL].
  - split; [|constructor]. intros e He. by apply elem_of_nil in He.
  - pose proof (LoadProfile_keeps_ids fs io h path IHm IHn) as K. by rewrite HL in K.
  - pose proof (LoadProfile_keeps_ids fs io h path IHm IHn) as K. by rewrite HL in K.
  - pose proof (LoadProfile_keeps_ids fs io h path IHm IHn) as K. by rewrite HL in K.
Qed.







End CommonRoute.


Local Ltac on_upload Hpath Hmeth :=
  unfold ServeHTTP; rewrite Hpath, Hmeth; simpl String.eqb; cbv iota;
  unfold upload.

(** C5: a [POST /upload] whose token is not the configured one is
    answered 401 and changes nothing: the directory and the handler,
    its catalog included, are as before. *)
Theorem upload_bad_token_is_401_without_effect (W : World) (io : IO) (r : Request) :
  URL_Path r = "/upload" -> Method r = MethodPost ->
  Header_Get r "x-upload-token" <> UploadToken (handler W) ->
  exists w,
    ServeHTTP Parse PProf Format mux_ServeHTTP W io new_response r = (W, Replied w) /\
    sent_status w = StatusUnauthorized /\ body w = "".
Proof.
  intros Hpath Hmeth Htok. on_upload Hpath Hmeth.
  apply String.eqb_neq in Htok. rewrite Htok. simpl. eauto.
Qed.

(** C4: an upload that passes the token and name checks and whose bytes
    do not parse is answered 500 and adds nothing to the catalog (the
    handler is as before); when the file was written, it stays in the
    directory with the uploaded bytes. *)
Theorem upload_parse_failure_is_500_file_kept
  (W : World) (io : IO) (r : Request) (file : string) :
  URL_Path r = "/upload" -> Method r = MethodPost ->
  Header_Get r "x-upload-token" = UploadToken (handler W) ->
  MatchString profileNameRegexp (FormValue r "name") = true ->
  FormFile r "pprof" = Some file ->
  Parse file = None ->
  exists W' w,
    ServeHTTP Parse PProf Format mux_ServeHTTP W io new_response r = (W', Replied w) /\
    sent_status w = StatusInternalServerError /\
    handler W' = handler W /\
    (openfile_err io = false -> copy_err io = None ->
     disk W' !! Join (ProfilesDir (handler W)) (FormValue r "name" +:+ ".pprof")
     = Some {| data := file; mtime := now io |}).
Proof.
  intros Hpath Hmeth Htok Hname Hfile Hparse. on_upload Hpath Hmeth.
  rewrite Htok, String.eqb_refl, Hname, Hfile. simpl negb. cbv iota.
  destruct (openfile_err io) eqn:Hof.
  { eexists _, _. split; [reflexivity|]. by repeat split. }
  destruct (copy_err io) as [n|] eqn:Hcp.
  { eexists _, _. split; [reflexivity|]. by repeat split. }
  unfold LoadProfile. destruct (stat_err io).
  { eexists _, _. split; [reflexivity|]. repeat split. intros _ _. simpl.
    by rewrite lookup_insert_eq. }
  rewrite lookup_insert_eq. destruct (open_err io).
  { eexists _, _. split; [reflexivity|]. repeat split. intros _ _. simpl.
    by rewrite lookup_insert_eq. }
  simpl data. rewrite Hparse.
  eexists _, _. split; [reflexivity|]. repeat split. intros _ _. simpl.
  by rewrite lookup_insert_eq.
Qed.

(** C10: the destination is opened with create-and-truncate before the
    [pprof] field is read.  An upload that passes the token and name
    checks and has no [pprof] field is answered 500 and adds nothing to
    the catalog, but the file of that name is now empty: a snapshot
    stored before under the same name has lost its bytes. *)
Theorem upload_without_file_truncates_before_failing
  (W : World) (io : IO) (r : Request) :
  URL_Path r = "/upload" -> Method r = MethodPost ->
  Header_Get r "x-upload-token" = UploadToken (handler W) ->
  MatchString profileNameRegexp (FormValue r "name") = true ->
  FormFile r "pprof" = None ->
  openfile_err io = false ->
  let path := Join (ProfilesDir (handler W)) (FormValue r "name" +:+ ".pprof") in
  exists W' w,
    ServeHTTP Parse PProf Format mux_ServeHTTP W io new_response r = (W', Replied w) /\
    sent_status w = StatusInternalServerError /\
    handler W' = handler W /\
    disk W' !! path = Some {| data := ""; mtime := now io |} /\
    (forall old, disk W !! path = Some old -> data old <> "" -> disk W' <> disk W).
Proof.
  intros Hpath Hmeth Htok Hname Hfile Hof path. on_upload Hpath Hmeth.
  rewrite Htok, String.eqb_refl, Hname, Hfile, Hof. simpl negb. cbv iota.
  eexists _, _. split; [reflexivity|]. simpl. fold path.
  rewrite lookup_insert_eq. repeat split.
  intros old Hold Hne E. rewrite <- E, lookup_insert_eq in Hold.
  inversion Hold as [Hd]. apply Hne. by rewrite <- Hd.
Qed.

(** C6: the name check accepts exactly the non-empty strings of bytes
    of [[A-Za-z0-9_-]]; it rejects the four bad names and accepts
    [prof_1-2]; and a rejected name is answered 400 with the directory
    and the handler as before. *)
Theorem profile_name_validation :
  (forall s, MatchString profileNameRegexp s = true <->
             s <> "" /\ forall c, In c (bytes s) -> name_byte c) /\
  MatchString profileNameRegexp "" = false /\
  MatchString profileNameRegexp "../etc" = false /\
  MatchString profileNameRegexp "a/b" = false /\
  MatchString profileNameRegexp "a b" = false /\
  MatchString profileNameRegexp "prof_1-2" = true /\
  (forall W io r,
     URL_Path r = "/upload" -> Method r = MethodPost ->
     Header_Get r "x-upload-token" = UploadToken (handler W) ->
     MatchString profileNameRegexp (FormValue r "name") = false ->
     exists w,
       ServeHTTP Parse PProf Format mux_ServeHTTP W io new_response r = (W, Replied w) /\
       sent_status w = StatusBadRequest /\ body w = "").
Proof.
  split; [|repeat split; try reflexivity].
  - intros s. unfold profileNameRegexp. rewrite MatchString_plus_class.
    rewrite andb_true_iff, negb_true_iff, String.eqb_neq, forallb_forall.
    by setoid_rewrite in_name_class.
  - intros W io r Hpath Hmeth Htok Hname. on_upload Hpath Hmeth.
    rewrite Htok, String.eqb_refl, Hname. simpl. eauto.
Qed.

(** C8 (the code at the failing input): a request for a known path with
    another method is not answered 404.  [POST /] and [GET /upload] run
    no handler and write nothing, so the server sends [200 OK] with an
    empty body; a path outside the three routes is answered 404. *)
Theorem known_path_other_method_is_200
  (W : World) (io : IO) (hd fm fl : gmap string string) :
  (exists w,
     ServeHTTP Parse PProf Format mux_ServeHTTP W io new_response
       {| Method := MethodPost; URL_Path := "/"; Header := hd; Form := fm;
          MultipartFiles := fl |} = (W, Replied w) /\
     sent_status w = StatusOK /\ body w = "" /\ sent_status w <> StatusNotFound) /\
  (exists w,
     ServeHTTP Parse PProf Format mux_ServeHTTP W io new_response
       {| Method := MethodGet; URL_Path := "/upload"; Header := hd; Form := fm;
          MultipartFiles := fl |} = (W, Replied w) /\
     sent_status w = StatusOK /\ body w = "" /\ sent_status w <> StatusNotFound) /\
  (exists w,
     ServeHTTP Parse PProf Format mux_ServeHTTP W io new_response
       {| Method := MethodGet; URL_Path := "/nowhere"; Header := hd; Form := fm;
          MultipartFiles := fl |} = (W, Replied w) /\
     sent_status w = StatusNotFound).
Proof.
  repeat split; eexists; (split; [reflexivity|]); simpl; repeat split; done.
Qed.


Lemma append_assoc (a b c : string) : (a +:+ b) +:+ c = a +:+ (b +:+ c).
Proof.
  induction a as [|x a IH]; [done|].
  change (String x ((a +:+ b) +:+ c) = String x (a +:+ b +:+ c)). by f_equal.
Qed.






(** ** Requests served one after the other *)

Lemma LoadProfile_catalog_grows (fs : FS) (io : IO) (h : Handler) (path : string) :
  forall e, e ∈ Profiles h ->
  e ∈ Profiles (left_by (LoadProfile Parse PProf fs io h path)).
Proof.
  intros e He.
  destruct (LoadProfile Parse PProf fs io h path) as [[err|] h'|h'] eqn:HL; simpl.
  - apply LoadProfile_error_inv in HL. by subst.
  - apply LoadProfile_ok_inv in HL as (f & _ & _ & _ & _ & _ & HP & _).
    rewrite HP, sort_Slice_Permutation. apply elem_of_app. by left.
  - apply LoadProfile_panic_inv in HL as (-> & _). done.
Qed.

Lemma ServeHTTP_catalog_grows (W W' : World) (io : IO) (w : ResponseWriter)
  (r : Request) (out : served) :
  ServeHTTP Parse PProf Format mux_ServeHTTP W io w r = (W', out) ->
  forall e, e ∈ Profiles (handler W) -> e ∈ Profiles (handler W').
Proof.
  unfold ServeHTTP, upload. intros H e He.
  repeat (match type of H with
          | context [if ?b then _ else _] => destruct b
          | context [match FormFile ?a ?b with _ => _ end] => destruct (FormFile a b)
          | context [match copy_err ?a with _ => _ end] => destruct (copy_err a)
          end);
    try (by inversion H; subst).
  pose proof (LoadProfile_catalog_grows
    (<[Join (ProfilesDir (handler W)) (FormValue r "name" +:+ ".pprof")
       := {| data := s; mtime := now io |}]>
       (<[Join (ProfilesDir (handler W)) (FormValue r "name" +:+ ".pprof")
          := {| data := ""; mtime := now io |}]> (disk W)))
    io (handler W)
    (Join (ProfilesDir (handler W)) (FormValue r "name" +:+ ".pprof")) e He) as K.
  destruct (LoadProfile _ _ _ _ _ _) as [[err|] h'|h']; by inversion H; subst.
Qed.

Lemma upload_created_is_listed (W W' : World) (io : IO) (r : Request) (w : ResponseWriter) :
  upload Parse PProf W io new_response r = (W', Replied w) ->
  status w = Some StatusCreated ->
  FormValue r "name" ∈ Name <$> Profiles (handler W').
Proof.
  unfold upload. intros H Hw.
  destruct (negb (String.eqb _ _)); [by inversion H; subst|].
  destruct (negb (MatchString _ _)) eqn:Hname; [by inversion H; subst|].
  apply negb_false_iff in Hname.
  destruct (openfile_err io); [by inversion H; subst|].
  destruct (FormFile r "pprof") as [file|]; [|by inversion H; subst].
  destruct (copy_err io); [by inversion H; subst|].
  destruct (LoadProfile _ _ _ _ _ _) as [[err|] h'|h'] eqn:HL;
    [by inversion H; subst| |done].
  inversion H; subst; clear H. simpl.
  apply LoadProfile_ok_inv in HL as (f & _ & _ & _ & _ & _ & HP & _).
  rewrite HP, sort_Slice_Permutation, fmap_app. apply elem_of_app. right.
  simpl. rewrite profileID_of_Join; [left|by apply valid_name_no_separator].
Qed.

Lemma serve_all_catalog_grows (rs : list (IO * Request)) :
  forall W W' outs,
  serve_all Parse PProf Format mux_ServeHTTP W rs = (W', outs) ->
  forall e, e ∈ Profiles (handler W) -> e ∈ Profiles (handler W').
Proof.
  induction rs as [|[io r] rs IH]; simpl; intros W W' outs H e He.
  - by inversion H; subst.
  - destruct (ServeHTTP _ _ _ _ W io new_response r) as [W1 out] eqn:H1.
    destruct (serve_all _ _ _ _ W1 rs) as [W2 outs2] eqn:H2.
    inversion H; subst. eapply IH; [done|]. by eapply ServeHTTP_catalog_grows.
Qed.

(** C3 (as amended): the program takes no lock.  Served one after the
    other, every upload answered [201 Created] has its identifier in
    the final catalog; and the catalog update of one load, run without
    interleaving, appends the entry and sorts. *)
Theorem sequential_uploads_all_listed
  (rs : list (IO * Request)) (W W' : World) (outs : list served)
  (i : nat) (io : IO) (r : Request) (w : ResponseWriter) :
  serve_all Parse PProf Format mux_ServeHTTP W rs = (W', outs) ->
  rs !! i = Some (io, r) -> outs !! i = Some (Replied w) ->
  URL_Path r = "/upload" -> Method r = MethodPost ->
  status w = Some StatusCreated ->
  FormValue r "name" ∈ Name <$> Profiles (handler W') /\
  (forall shared e,
     Interleaving.run [0; 0; 0]%nat shared [Interleaving.AtAppend e]
     = (sort_Slice less (shared ++ [e])%list, [Interleaving.Finished])).
Proof.
  intros H Hr Ho Hpath Hmeth Hw. split; [|done].
  revert W W' outs i H Hr Ho.
  induction rs as [|[io1 r1] rs IH]; simpl; intros W W' outs i H Hr Ho; [done|].
  destruct (ServeHTTP _ _ _ _ W io1 new_response r1) as [W1 out] eqn:H1.
  destruct (serve_all _ _ _ _ W1 rs) as [W2 outs2] eqn:H2.
  inversion H; subst; clear H. destruct i as [|i]; simpl in *.
  - inversion Hr; subst. inversion Ho; subst.
    revert H1. unfold ServeHTTP. rewrite Hpath, Hmeth. simpl String.eqb. cbv iota.
    intros H1. apply upload_created_is_listed in H1; [|done].
    apply list_elem_of_fmap in H1 as (e & -> & He).
    apply list_elem_of_fmap. exists e. split; [done|].
    by eapply serve_all_catalog_grows.
  - by eapply IH.
Qed.

End Properties.


(** * The program on concrete inputs *)

Lemma Toy_engine_route (pprof : string) (handlers : gset string) :
  Toy.PProf pprof = Some handlers -> "/" ∈ handlers.
Proof. intros [= <-]. set_solver. Defined.




(** C3, the claim as stated fails: two loads with distinct identifiers
    whose catalog updates interleave, both reading the slice before
    either stores it: both finish, and the first one's entry is lost. *)
Lemma interleaved_loads_lose_an_entry :
  Interleaving.run [0; 1; 0; 1; 0; 1]%nat []
    [Interleaving.AtAppend Toy.entry_a; Interleaving.AtAppend Toy.entry_b]
  = ([Toy.entry_b], [Interleaving.Finished; Interleaving.Finished]) /\
  Name Toy.entry_a <> Name Toy.entry_b /\
  Toy.entry_a ∉ [Toy.entry_b].
Proof.
  split; [reflexivity|]. split; [discriminate|].
  intros H. apply list_elem_of_singleton in H. discriminate.
Qed.

Lemma sequential_uploads_all_listed_witness :
  "svc-a" ∈ Name <$> Profiles (handler (fst
     (serve_all Toy.Parse Toy.PProf Toy.Format Toy.mux_ServeHTTP
        Toy.empty_world Toy.two_uploads))) /\
  (forall shared e,
     Interleaving.run [0; 0; 0]%nat shared [Interleaving.AtAppend e]
     = (sort_Slice less (shared ++ [e])%list, [Interleaving.Finished])).
Proof.
  eapply (sequential_uploads_all_listed Toy.Parse Toy.PProf Toy.Format
            Toy.mux_ServeHTTP Toy.two_uploads Toy.empty_world _ _ 0%nat Toy.io
            (Toy.post_upload "pprof" "svc-a" (Some "abc"))).
  - apply surjective_pairing.
  - reflexivity.
  - vm_compute. reflexivity.
  - reflexivity.
  - reflexivity.
  - reflexivity.
Defined.

Lemma upload_parse_failure_is_500_file_kept_witness :
  exists W' w,
    ServeHTTP Toy.Parse Toy.PProf Toy.Format Toy.mux_ServeHTTP Toy.empty_world Toy.io
      new_response (Toy.post_upload "pprof" "svc-a" (Some "")) = (W', Replied w) /\
    sent_status w = StatusInternalServerError /\
    handler W' = handler Toy.empty_world /\
    (openfile_err Toy.io = false -> copy_err Toy.io = None ->
     disk W' !! Join (ProfilesDir (handler Toy.empty_world))
                  (FormValue (Toy.post_upload "pprof" "svc-a" (Some "")) "name" +:+ ".pprof")
     = Some {| data := ""; mtime := now Toy.io |}).
Proof.
  apply (upload_parse_failure_is_500_file_kept Toy.Parse Toy.PProf Toy.Format
           Toy.mux_ServeHTTP Toy.empty_world Toy.io
           (Toy.post_upload "pprof" "svc-a" (Some "")) "");
    vm_compute; reflexivity.
Defined.

Lemma upload_bad_token_is_401_without_effect_witness :
  exists w,
    ServeHTTP Toy.Parse Toy.PProf Toy.Format Toy.mux_ServeHTTP Toy.stored_world Toy.io
      new_response (Toy.post_upload "guess" "svc-a" (Some "abc"))
    = (Toy.stored_world, Replied w) /\
    sent_status w = StatusUnauthorized /\ body w = "".
Proof.
  apply (upload_bad_token_is_401_without_effect Toy.Parse Toy.PProf Toy.Format
           Toy.mux_ServeHTTP Toy.stored_world Toy.io
           (Toy.post_upload "guess" "svc-a" (Some "abc"))).
  - reflexivity.
  - reflexivity.
  - vm_compute. discriminate.
Defined.


Lemma upload_without_file_truncates_before_failing_witness :
  exists W' w,
    ServeHTTP Toy.Parse Toy.PProf Toy.Format Toy.mux_ServeHTTP Toy.stored_world Toy.io
      new_response (Toy.post_upload "pprof" "svc-a" None) = (W', Replied w) /\
    sent_status w = StatusInternalServerError /\
    handler W' = handler Toy.stored_world /\
    disk W' !! "profiles/svc-a.pprof" = Some {| data := ""; mtime := now Toy.io |} /\
    (forall old, disk Toy.stored_world !! "profiles/svc-a.pprof" = Some old ->
                 data old <> "" -> disk W' <> disk Toy.stored_world).
Proof.
  apply (upload_without_file_truncates_before_failing Toy.Parse Toy.PProf Toy.Format
           Toy.mux_ServeHTTP Toy.stored_world Toy.io
           (Toy.post_upload "pprof" "svc-a" None));
    vm_compute; reflexivity.
Defined.

(** * Further properties of the profile store *)

Section MoreMountFacts.

Lemma mount_upper (mux mux' : ServeMux) (id : string) (paths : list string) (b : bool) :
  mount mux id paths = (mux', b) ->
  mux' ⊆ list_to_set (route id <$> paths) ∪ mux.
Proof.
  revert mux. induction paths as [|q paths IH]; simpl; intros mux H.
  - inversion H. set_solver.
  - unfold Handle in H. case_decide.
    + inversion H. set_solver.
    + apply IH in H. set_solver.
Qed.

Lemma mount_exact (mux mux' : ServeMux) (id : string) (paths : list string) :
  mount mux id paths = (mux', true) ->
  mux' = list_to_set (route id <$> paths) ∪ mux.
Proof.
  intros H. apply set_eq. intros r. split.
  - apply (mount_upper _ _ _ _ _ H).
  - intros [Hr|Hr]%elem_of_union; [|by apply (mount_mono _ _ _ _ _ H)].
    apply elem_of_list_to_set, list_elem_of_fmap in Hr as (p & -> & Hp).
    by apply (mount_done _ _ _ _ H).
Qed.

Lemma mount_fresh (mux : ServeMux) (id : string) (paths : list string) :
  NoDup paths -> (forall p, p ∈ paths -> route id p ∉ mux) ->
  exists mux', mount mux id paths = (mux', true).
Proof.
  intros Hnd Hfresh. destruct (mount mux id paths) as [mux' []] eqn:Hm; [eauto|].
  destruct (mount_panic_inv _ _ _ _ Hnd Hm) as (p & Hp & Hin).
  by destruct (Hfresh p Hp).
Qed.

End MoreMountFacts.

(** The last element of the path an upload writes to is the file name:
    the file lies directly in the directory. *)
Lemma Base_Join (dir name : string) :
  forallb (fun c => negb (IsPathSeparator c)) (bytes name) = true ->
  Base (Join dir (name +:+ ".pprof")) = name +:+ ".pprof".
Proof.
  intros Hname.
  assert (Hrev : rev (bytes (Join dir (name +:+ ".pprof")))
                 = (bytes "forpp." ++ rev (bytes name) ++ "/"%char :: rev (bytes dir))%list).
  { unfold Join. rewrite !bytes_app, !rev_app_distr. simpl. by rewrite <- !app_assoc. }
  unfold Base.
  destruct (bytes (Join dir (name +:+ ".pprof"))) eqn:E.
  { apply (f_equal (@length _)) in E. unfold Join in E.
    rewrite !bytes_app, !length_app in E. simpl in E. lia. }
  rewrite Hrev.
  change (bytes "forpp.") with ["f"; "o"; "r"; "p"; "p"; "."]%char.
  cbn [app strip_separators IsPathSeparator Ascii.eqb Bool.eqb].
  cbn [until_separator IsPathSeparator Ascii.eqb Bool.eqb].
  rewrite until_separator_app.
  2:{ rewrite forallb_forall in *. intros c Hc. by apply Hname, in_rev. }
  cbn [rev]. rewrite rev_involutive, <- !app_assoc. simpl.
  by rewrite str_app, str_bytes.
Qed.

Section MoreProperties.

Context {Profile : Type}.
Variable Parse : string -> option Profile.
Variable PProf : Profile -> option (gset string).
Variable Format : Z -> string.
Variable mux_ServeHTTP : ServeMux -> ResponseWriter -> Request -> ResponseWriter.

(** The file an upload writes to. *)
Definition upload_path (W : World) (r : Request) : string :=
  Join (ProfilesDir (handler W)) (FormValue r "name" +:+ ".pprof").

(** What any call of [upload] does to the directory and the handler. *)
Lemma upload_effect (W W' : World) (io : IO) (w : ResponseWriter) (r : Request)
  (out : served) :
  upload Parse PProf W io w r = (W', out) ->
  (W' = W \/
   (Header_Get r "x-upload-token" = UploadToken (handler W) /\
    MatchString profileNameRegexp (FormValue r "name") = true /\
    exists f fs,
      disk W' = <[ upload_path W r := f ]> (disk W) /\
      (handler W' = handler W \/
       handler W' = left_by (LoadProfile Parse PProf fs io (handler W) (upload_path W r))))).
Proof.
  unfold upload. fold (upload_path W r). intros H.
  destruct (String.eqb _ _) eqn:Htok; simpl in H; [|left; by inversion H].
  apply String.eqb_eq in Htok.
  destruct (MatchString _ _) eqn:Hname; simpl in H; [|left; by inversion H].
  destruct (openfile_err io); [left; by inversion H|].
  right. split; [done|]. split; [done|].
  destruct (FormFile r "pprof") as [file|].
  2:{ inversion H; subst; simpl. eexists _, ∅. split; [done|by left]. }
  destruct (copy_err io) as [n|].
  { inversion H; subst; simpl. eexists _, ∅. rewrite insert_insert_eq. split; [done|by left]. }
  destruct (LoadProfile _ _ _ _ _ _) as [[err|] h'|h'] eqn:HL;
    inversion H; subst; simpl; eexists _, _; rewrite insert_insert_eq;
    (split; [done|]); right; by rewrite HL.
Qed.


(** What any request does to the directory and the handler. *)
Lemma ServeHTTP_effect (W W' : World) (io : IO) (w : ResponseWriter) (r : Request)
  (out : served) :
  ServeHTTP Parse PProf Format mux_ServeHTTP W io w r = (W', out) ->
  W' = W \/
  (URL_Path r = "/upload" /\ Method r = MethodPost /\
   upload Parse PProf W io w r = (W', out)).
Proof.
  unfold ServeHTTP. intros H.
  destruct (String.eqb (URL_Path r) "/").
  { left. destruct (String.eqb _ _); by inversion H. }
  destruct (String.eqb_spec (URL_Path r) "/upload") as [Hp|_].
  - destruct (String.eqb_spec (Method r) MethodPost) as [Hm|_]; [by right|].
    left. by inversion H.
  - left. destruct (HasPrefix _ _); by inversion H.
Qed.


(** Only [POST /upload] changes anything: every other request is
    answered with the directory and the handler as they were. *)
Theorem only_uploads_change_the_world (W : World) (io : IO) (w : ResponseWriter)
  (r : Request) :
  ~ (URL_Path r = "/upload" /\ Method r = MethodPost) ->
  exists w', ServeHTTP Parse PProf Format mux_ServeHTTP W io w r = (W, Replied w').
Proof.
  intros Hno. unfold ServeHTTP.
  destruct (String.eqb (URL_Path r) "/").
  { destruct (String.eqb _ _); eauto. }
  destruct (String.eqb_spec (URL_Path r) "/upload") as [Hp|_].
  - destruct (String.eqb_spec (Method r) MethodPost) as [Hm|_]; [|eauto].
    by destruct Hno.
  - destruct (HasPrefix _ _); eauto.
Qed.

(** A path that is none of [/], [/upload] and [/profiles/...] is
    answered 404 with an empty body, whatever the method; a path under
    [/profiles/] is handed to the profile router, whatever the method. *)
Theorem dispatch_of_other_paths (W : World) (io : IO) (r : Request) :
  URL_Path r <> "/" -> URL_Path r <> "/upload" ->
  exists w,
    ServeHTTP Parse PProf Format mux_ServeHTTP W io new_response r = (W, Replied w) /\
    if HasPrefix (URL_Path r) "/profiles/"
    then w = mux_ServeHTTP (ProfileMux (handler W)) new_response r
    else sent_status w = StatusNotFound /\ body w = "".
Proof.
  intros H1 H2. unfold ServeHTTP.
  apply String.eqb_neq in H1, H2. rewrite H1, H2.
  destruct (HasPrefix _ _); eexists; (split; [reflexivity|]); done.
Qed.

(** An upload writes to one file only, and that file lies directly in
    the catalog directory: every other path of the directory is as
    before, and when the directory changed at all, the token was right
    and the name has no path separator. *)
Theorem upload_touches_only_its_file (W W' : World) (io : IO) (w : ResponseWriter)
  (r : Request) (out : served) :
  ServeHTTP Parse PProf Format mux_ServeHTTP W io w r = (W', out) ->
  (forall p, p <> upload_path W r -> disk W' !! p = disk W !! p) /\
  (disk W' <> disk W ->
   Header_Get r "x-upload-token" = UploadToken (handler W) /\
   forallb (fun c => negb (IsPathSeparator c)) (bytes (FormValue r "name")) = true /\
   Base (upload_path W r) = FormValue r "name" +:+ ".pprof").
Proof.
  intros H. apply ServeHTTP_effect in H as [->|(_ & _ & H)]; [done|].
  apply upload_effect in H as [->|(Htok & Hname & f & fs & Hd & _)]; [done|].
  rewrite Hd. split.
  - intros p Hp. by rewrite lookup_insert_ne.
  - intros _. pose proof (valid_name_no_separator _ Hname) as Hsep.
    repeat split; try done.
    apply Base_Join, Hsep.
Qed.

End MoreProperties.

Section UploadOutcomes.

Context {Profile : Type}.
Variable Parse : string -> option Profile.
Variable PProf : Profile -> option (gset string).
Variable Format : Z -> string.
Variable mux_ServeHTTP : ServeMux -> ResponseWriter -> Request -> ResponseWriter.

(** The name a client uploads under is the identifier the snapshot is
    loaded, listed and mounted under: [LoadProfile] recovers it from
    the path that [upload] built. *)
Theorem upload_name_is_profile_id (dir name : string) :
  MatchString profileNameRegexp name = true ->
  profileID_of (Join dir (name +:+ ".pprof")) = name.
Proof. intros H. by apply profileID_of_Join, valid_name_no_separator. Qed.

(** An upload that passes both checks, whose file is written, parses
    and is accepted by the engine, and none of whose routes is
    registered yet: it is answered [201 Created] with the browse
    location; the file holds the uploaded bytes; the catalog has gained
    exactly the entry of that name with the file's time and is sorted;
    and the router has gained exactly the routes of the engine's
    handlers under [/profiles/<name>]. *)
Theorem upload_stores_lists_and_mounts
  (W : World) (io : IO) (r : Request) (file : string) (pprof : Profile)
  (handlers : gset string) :
  URL_Path r = "/upload" -> Method r = MethodPost ->
  Header_Get r "x-upload-token" = UploadToken (handler W) ->
  MatchString profileNameRegexp (FormValue r "name") = true ->
  FormFile r "pprof" = Some file ->
  openfile_err io = false -> copy_err io = None ->
  stat_err io = false -> open_err io = false ->
  Parse file = Some pprof -> PProf pprof = Some handlers ->
  (forall p, p ∈ handlers -> route (FormValue r "name") p ∉ ProfileMux (handler W)) ->
  exists W' w,
    ServeHTTP Parse PProf Format mux_ServeHTTP W io new_response r = (W', Replied w) /\
    sent_status w = StatusCreated /\
    body w = "/profiles/" +:+ FormValue r "name" +:+ nl /\
    disk W' = <[ upload_path W r := {| data := file; mtime := now io |} ]> (disk W) /\
    Permutation (Profiles (handler W'))
      ({| Name := FormValue r "name"; ModTime := now io |} :: Profiles (handler W)) /\
    descending (Profiles (handler W')) /\
    ProfileMux (handler W')
    = list_to_set (route (FormValue r "name") <$> elements handlers) ∪ ProfileMux (handler W).
Proof.
  intros Hpath Hmeth Htok Hname Hfile Hof Hcp Hst Hop Hparse Hdrv Hfresh.
  destruct (mount_fresh (ProfileMux (handler W)) (FormValue r "name") (elements handlers))
    as [mux Hm]; [apply NoDup_elements| |].
  { intros p Hp. by apply Hfresh, elem_of_elements. }
  unfold ServeHTTP. rewrite Hpath, Hmeth. simpl String.eqb. cbv iota.
  unfold upload. cbv zeta. fold (upload_path W r).
  rewrite Htok, String.eqb_refl, Hname, Hfile, Hof, Hcp. simpl negb. cbv iota.
  unfold LoadProfile. cbv zeta. rewrite Hst, lookup_insert_eq, Hop. simpl data. simpl mtime.
  rewrite Hparse, Hdrv.
  assert (Hid : profileID_of (upload_path W r) = FormValue r "name")
    by by apply profileID_of_Join, valid_name_no_separator.
  rewrite !Hid, Hm.
  eexists _, _. split; [reflexivity|]. simpl.
  split; [done|]. split; [done|]. split; [by rewrite insert_insert_eq|].
  split; [|split].
  - rewrite sort_Slice_Permutation. symmetry. apply Permutation_cons_append.
  - apply sort_Slice_descending.
  - by apply mount_exact.
Qed.

(** An upload under a name one of whose routes is registered already
    (a second upload of a mounted snapshot): the stored file is
    overwritten with the new bytes, the handler panics in route
    registration, no response is sent, and the catalog keeps the old
    entry with the old time. *)
Theorem upload_of_mounted_name_overwrites_and_aborts
  (W : World) (io : IO) (r : Request) (file : string) (pprof : Profile)
  (handlers : gset string) (p : string) :
  URL_Path r = "/upload" -> Method r = MethodPost ->
  Header_Get r "x-upload-token" = UploadToken (handler W) ->
  MatchString profileNameRegexp (FormValue r "name") = true ->
  FormFile r "pprof" = Some file ->
  openfile_err io = false -> copy_err io = None ->
  stat_err io = false -> open_err io = false ->
  Parse file = Some pprof -> PProf pprof = Some handlers ->
  p ∈ handlers -> route (FormValue r "name") p ∈ ProfileMux (handler W) ->
  exists W',
    ServeHTTP Parse PProf Format mux_ServeHTTP W io new_response r = (W', Aborted) /\
    disk W' = <[ upload_path W r := {| data := file; mtime := now io |} ]> (disk W) /\
    Profiles (handler W') = Profiles (handler W).
Proof.
  intros Hpath Hmeth Htok Hname Hfile Hof Hcp Hst Hop Hparse Hdrv Hp Hin.
  destruct (mount_conflict (ProfileMux (handler W)) (FormValue r "name")
              (elements handlers) p) as [mux Hm]; [by apply elem_of_elements|done|].
  unfold ServeHTTP. rewrite Hpath, Hmeth. simpl String.eqb. cbv iota.
  unfold upload. cbv zeta. fold (upload_path W r).
  rewrite Htok, String.eqb_refl, Hname, Hfile, Hof, Hcp. simpl negb. cbv iota.
  unfold LoadProfile. cbv zeta. rewrite Hst, lookup_insert_eq, Hop. simpl data.
  rewrite Hparse, Hdrv.
  assert (Hid : profileID_of (upload_path W r) = FormValue r "name")
    by by apply profileID_of_Join, valid_name_no_separator.
  rewrite !Hid, Hm.
  eexists. split; [reflexivity|]. simpl. by rewrite insert_insert_eq.
Qed.


(** When every handler map of the engine has the path [p0], every
    entry of the catalog has the route [/profiles/<id><p0>] registered
    in the router, after any sequence of loads. *)
Theorem catalog_entries_are_mounted
  (p0 tok : string) (log : list ProfileInfo) (h : Handler) (e : ProfileInfo) :
  (forall pprof handlers, PProf pprof = Some handlers -> p0 ∈ handlers) ->
  loaded Parse PProf tok log h ->
  e ∈ Profiles h ->
  route (Name e) p0 ∈ ProfileMux h.
Proof.
  intros Hroute Hl He.
  destruct (loaded_ids Parse PProf p0 Hroute tok log h Hl) as [Hm _]. by apply Hm.
Qed.

End UploadOutcomes.

(** * The startup of [run]

    [run] lists the catalog directory with
    [filepath.Glob(filepath.Join(profilesDir, "*.pprof"))] and loads
    every path of the listing.  The directory is the file system's set
    of paths; [Glob] reads the names of the directory's entries, sorts
    them, keeps the names that match [*.pprof] and joins them with the
    directory.  (Entries that are directories themselves are left out:
    the file system model has files only, and a directory that matched
    would fail to parse.) *)

Definition separator_free (name : string) : bool :=
  forallb (fun c => negb (IsPathSeparator c)) (bytes name).

(** [s] without the leading [p], when [s] starts with [p]. *)
Fixpoint strip_prefix (p s : list ascii) : option (list ascii) :=
  match p, s with
  | [], _ => Some s
  | a :: p', b :: s' => if Ascii.eqb a b then strip_prefix p' s' else None
  | _ :: _, [] => None
  end.

(** The name under which [path] is an entry of the directory [dir]. *)
Definition entry_name (dir path : string) : option string :=
  match strip_prefix (bytes (dir +:+ "/")) (bytes path) with
  | Some n =>
      if negb (String.eqb (str n) "") && separator_free (str n)
      then Some (str n) else None
  | None => None
  end.

Definition Readdirnames (fs : FS) (dir : string) : list string :=
  omap (entry_name dir) (elements (dom fs)).

(** [filepath.Match "*.pprof" name] for the name of a directory entry:
    the star matches any bytes but separators. *)
Definition Match_pprof (name : string) : bool :=
  separator_free name && HasSuffix name ".pprof".

Definition Glob_pprof (fs : FS) (dir : string) : list string :=
  Join dir <$> List.filter Match_pprof (sort_Slice String.ltb (Readdirnames fs dir)).

(** The part of [run] before the server starts: the handler, the
    listing and the loop over it. *)
Definition startup {Profile : Type} (Parse : string -> option Profile)
  (PProf : Profile -> option (gset string))
  (fs : FS) (io : string -> IO) (uploadToken : string) : outcome :=
  load_all Parse PProf fs io (new_handler uploadToken) (Glob_pprof fs "profiles").

Section GlobFacts.

Lemma strip_prefix_spec (p s r : list ascii) :
  strip_prefix p s = Some r <-> s = (p ++ r)%list.
Proof.
  revert s. induction p as [|a p IH]; intros s; simpl.
  - split; [by intros [= ->]|by intros ->].
  - destruct s as [|b s]; [done|].
    destruct (Ascii.eqb_spec a b) as [->|Hne].
    + rewrite IH. split; [by intros ->|by intros [= ->]].
    + split; [done|]. intros [= -> _]. done.
Qed.

Lemma prefix_spec (a b : string) :
  String.prefix a b = true <-> exists c, b = a +:+ c.
Proof.
  revert b. induction a as [|x a IH]; intros b.
  - split; [intros _; by exists b|]. intros _. by destruct b.
  - destruct b as [|y b]; simpl.
    + split; [done|]. by intros [c [=]].
    + destruct (ascii_dec x y) as [->|Hne].
      * rewrite IH. split; intros [c Hc]; exists c.
        -- by rewrite Hc.
        -- by inversion Hc.
      * split; [done|]. intros [c Hc]. inversion Hc. done.
Qed.

Lemma HasSuffix_spec (s suffix : string) :
  HasSuffix s suffix = true <-> exists c, s = c +:+ suffix.
Proof.
  unfold HasSuffix. rewrite prefix_spec. split.
  - intros [c Hc]. exists (str (rev (bytes c))).
    apply (f_equal bytes) in Hc. rewrite bytes_app, !bytes_str in Hc.
    apply (f_equal (@rev _)) in Hc. rewrite rev_involutive, rev_app_distr, rev_involutive in Hc.
    rewrite <- (str_bytes s), Hc, str_app, str_bytes. done.
  - intros [c ->]. exists (str (rev (bytes c))).
    by rewrite bytes_app, rev_app_distr, str_app.
Qed.

Lemma separator_free_app (a b : string) :
  separator_free (a +:+ b) = separator_free a && separator_free b.
Proof. unfold separator_free. by rewrite bytes_app, forallb_app. Qed.

Lemma entry_name_spec (dir path name : string) :
  entry_name dir path = Some name <->
  path = Join dir name /\ name <> "" /\ separator_free name = true.
Proof.
  unfold entry_name, Join.
  destruct (strip_prefix _ _) as [n|] eqn:E.
  - apply strip_prefix_spec in E.
    assert (Hpath : path = dir +:+ "/" +:+ str n).
    { rewrite <- (str_bytes path), E, str_app, str_bytes. apply append_assoc. }
    destruct (negb (String.eqb (str n) "") && separator_free (str n)) eqn:Hok.
    + apply andb_true_iff in Hok as [Hne%negb_true_iff%String.eqb_neq Hsep].
      split.
      * by intros [= <-].
      * intros (Hp & _ & _). rewrite Hpath in Hp.
        apply append_inv_head, (append_inv_head "/") in Hp. by subst.
    + split; [done|]. intros (Hp & Hne & Hsep). rewrite Hpath in Hp.
      apply append_inv_head, (append_inv_head "/") in Hp. subst name.
      apply String.eqb_neq in Hne. by rewrite Hne, Hsep in Hok.
  - split; [done|]. intros (-> & _ & _).
    assert (K : strip_prefix (bytes (dir +:+ "/")) (bytes (dir +:+ "/" +:+ name))
                = Some (bytes name)).
    { apply strip_prefix_spec. by rewrite <- append_assoc, (bytes_app (dir +:+ "/")). }
    congruence.
Qed.

End GlobFacts.

Section GlobListing.

Lemma sort_Slice_Permutation_any {A : Type} (lt : A -> A -> bool) (l : list A) :
  Permutation (sort_Slice lt l) l.
Proof.
  induction l as [|x l IH]; simpl; [done|].
  etrans; [|by apply perm_skip, IH].
  generalize (sort_Slice lt l). clear. intros l.
  induction l as [|y l IH]; simpl; [done|].
  destruct (lt x y); [done|]. rewrite IH. apply perm_swap.
Qed.

Lemma omap_NoDup {A B : Type} (f : A -> option B) (l : list A) :
  (forall x y z, f x = Some z -> f y = Some z -> x = y) ->
  NoDup l -> NoDup (omap f l).
Proof.
  intros Hinj. induction 1 as [|x l Hx Hl IH]; simpl; [constructor|].
  destruct (f x) as [z|] eqn:E; [|done].
  apply NoDup_cons. split; [|done].
  intros (y & Hy & Hfy)%list_elem_of_omap.
  by rewrite (Hinj x y z E Hfy) in Hx.
Qed.

Lemma filter_NoDup {A : Type} (f : A -> bool) (l : list A) :
  NoDup l -> NoDup (List.filter f l).
Proof.
  induction 1 as [|x l Hx Hl IH]; simpl; [constructor|].
  destruct (f x); [|done]. apply NoDup_cons. split; [|done].
  intros Hin%list_elem_of_In%filter_In. apply Hx, list_elem_of_In. tauto.
Qed.

Lemma Readdirnames_spec (fs : FS) (dir name : string) :
  name ∈ Readdirnames fs dir <->
  is_Some (fs !! Join dir name) /\ name <> "" /\ separator_free name = true.
Proof.
  unfold Readdirnames. rewrite list_elem_of_omap. split.
  - intros (k & Hk & (-> & Hne & Hsep)%entry_name_spec).
    by rewrite elem_of_elements, elem_of_dom in Hk.
  - intros (Hin & Hne & Hsep). exists (Join dir name). split.
    + by rewrite elem_of_elements, elem_of_dom.
    + by apply entry_name_spec.
Qed.

Lemma Readdirnames_NoDup (fs : FS) (dir : string) : NoDup (Readdirnames fs dir).
Proof.
  apply omap_NoDup; [|apply NoDup_elements].
  intros x y z (-> & _)%entry_name_spec (-> & _)%entry_name_spec. done.
Qed.

(** The listing: exactly the files [dir/<x>.pprof] of the file system
    with [x] free of separators, each once. *)
Lemma Glob_pprof_spec (fs : FS) (dir path : string) :
  path ∈ Glob_pprof fs dir <->
  is_Some (fs !! path) /\
  exists x, separator_free x = true /\ path = Join dir (x +:+ ".pprof").
Proof.
  unfold Glob_pprof. rewrite list_elem_of_fmap. split.
  - intros (n & -> & Hn). apply list_elem_of_In, filter_In in Hn as [Hn Hm].
    apply list_elem_of_In in Hn. rewrite sort_Slice_Permutation_any in Hn.
    apply Readdirnames_spec in Hn as (Hin & _ & _). split; [done|].
    apply andb_true_iff in Hm as [Hsep [x ->]%HasSuffix_spec].
    exists x. split; [|done].
    rewrite separator_free_app in Hsep. by apply andb_true_iff in Hsep as [? _].
  - intros (Hin & x & Hsep & ->). exists (x +:+ ".pprof"). split; [done|].
    assert (Hsep' : separator_free (x +:+ ".pprof") = true).
    { rewrite separator_free_app, Hsep. reflexivity. }
    apply list_elem_of_In, filter_In. split.
    + apply list_elem_of_In. rewrite sort_Slice_Permutation_any.
      apply Readdirnames_spec. split; [done|]. split; [|done].
      by destruct x.
    + unfold Match_pprof. rewrite Hsep'. apply HasSuffix_spec. by exists x.
Qed.

Lemma Join_inj (dir a b : string) : Join dir a = Join dir b -> a = b.
Proof. unfold Join. intros H. by apply append_inv_head, (append_inv_head "/") in H. Qed.

Lemma Glob_pprof_NoDup (fs : FS) (dir : string) : NoDup (Glob_pprof fs dir).
Proof.
  unfold Glob_pprof. apply NoDup_fmap_2_strong.
  - intros a b _ _. apply Join_inj.
  - apply filter_NoDup. rewrite sort_Slice_Permutation_any. apply Readdirnames_NoDup.
Qed.

(** The identifiers of the listing are free of separators and pairwise
    distinct. *)
Lemma Glob_pprof_ids (fs : FS) (dir : string) :
  NoDup (profileID_of <$> Glob_pprof fs dir) /\
  forall path, path ∈ Glob_pprof fs dir ->
    separator_free (profileID_of path) = true /\
    path = Join dir (profileID_of path +:+ ".pprof").
Proof.
  assert (K : forall path, path ∈ Glob_pprof fs dir ->
    separator_free (profileID_of path) = true /\
    path = Join dir (profileID_of path +:+ ".pprof")).
  { intros path (_ & x & Hsep & ->)%Glob_pprof_spec.
    by rewrite profileID_of_Join. }
  split; [|done].
  apply NoDup_fmap_2_strong; [|apply Glob_pprof_NoDup].
  intros a b Ha Hb E. destruct (K a Ha) as [_ ->]. destruct (K b Hb) as [_ ->].
  by rewrite E.
Qed.

(** Routes of different snapshots never collide: the identifier of a
    route is what precedes the first separator after [/profiles/]. *)
Lemma route_id_inj (id1 id2 p1 p2 : string) :
  separator_free id1 = true -> separator_free id2 = true ->
  HasPrefix p1 "/" = true -> HasPrefix p2 "/" = true ->
  route id1 p1 = route id2 p2 -> id1 = id2.
Proof.
  unfold HasPrefix. intros H1 H2 [q1 ->]%prefix_spec [q2 ->]%prefix_spec E.
  unfold route in E. apply append_inv_head in E.
  apply (f_equal bytes) in E. rewrite !bytes_app in E.
  change (bytes "/") with ["/"%char] in E.
  rewrite <- (str_bytes id1), <- (str_bytes id2). f_equal.
  unfold separator_free in H1, H2.
  revert H1 H2 E. generalize (bytes id1) (bytes id2) (bytes q1) (bytes q2). clear.
  induction l as [|a l IH]; intros [|b k] r1 r2 H1 H2 E; simpl in *; try done.
  - inversion E; subst. by rewrite andb_false_l in H2.
  - inversion E; subst. by rewrite andb_false_l in H1.
  - apply andb_true_iff in H1 as [_ H1]. apply andb_true_iff in H2 as [_ H2].
    inversion E; subst. f_equal. by eapply IH.
Qed.

End GlobListing.

Section Startup.

Context {Profile : Type}.
Variable Parse : string -> option Profile.
Variable PProf : Profile -> option (gset string).


(** The handler paths of the engine start with a separator (pprof's
    are [/], [/top], [/flamegraph], ...). *)
Hypothesis engine_paths :
  forall pprof handlers p,
    PProf pprof = Some handlers -> p ∈ handlers -> HasPrefix p "/" = true.



End Startup.

(** * The file watcher

    The second program of the repository polls a file every second and
    runs a command when the file has changed and has then been left
    alone for the waiting time.  Instants are nanoseconds since Go's
    zero time, so that [t.IsZero()] is [t = 0]; a [time.Duration] is a
    64-bit count of nanoseconds, and [t.Sub(u)] saturates at its
    bounds.  The loop never ends; [loop] runs its first iterations, one
    for each observation of the system ([os.Stat]'s answer and
    [time.Now()]), and reports for each whether the command ran. *)

Module Watch.

Local Open Scope Z_scope.

Definition minDuration : Z := - 2 ^ 63.
Definition maxDuration : Z := 2 ^ 63 - 1.

Definition IsZero (t : Z) : bool := t =? 0.

(** [t.Sub(u)]. *)
Definition Sub (t u : Z) : Z :=
  let d := t - u in
  if d <? minDuration then minDuration
  else if maxDuration <? d then maxDuration
  else d.

(** What one iteration sees: the file's modification time ([None]:
    [os.Stat] failed) and the clock. *)
Record observation : Type := { stat_ModTime : option Z; time_Now : Z }.

(** One iteration of the loop of [run]: the new [lastRunModTime] and
    whether the command ran.  (A command that fails is logged; the
    time is recorded all the same.) *)
Definition iteration (waitDuration lastRunModTime : Z) (o : observation) : Z * bool :=
  match stat_ModTime o with
  | Some modTime =>
      let lastRunModTime := if IsZero lastRunModTime then modTime else lastRunModTime in
      let diff := Sub (time_Now o) modTime in
      if (waitDuration <=? diff) && negb (lastRunModTime =? modTime)
      then (modTime, true)
      else (lastRunModTime, false)
  | None => (lastRunModTime, false)
  end.

Fixpoint loop (waitDuration lastRunModTime : Z) (obs : list observation)
  : Z * list bool :=
  match obs with
  | [] => (lastRunModTime, [])
  | o :: rest =>
      let '(last, ran) := iteration waitDuration lastRunModTime o in
      let '(final, rans) := loop waitDuration last rest in
      (final, ran :: rans)
  end.

Inductive flag_error : Type := NoCommand | NoFile | BadDuration.

(** [run]: the flags are checked, the waiting time is parsed
    ([ParseDuration] is [time.ParseDuration]), and the loop starts with
    the zero time. *)
Definition run (ParseDuration : string -> option Z) (command file waitStr : string)
  (obs : list observation) : flag_error + list bool :=
  if String.eqb command "" then inl NoCommand
  else if String.eqb file "" then inl NoFile
  else
    match ParseDuration waitStr with
    | None => inl BadDuration
    | Some waitDuration => inr (snd (loop waitDuration 0 obs))
    end.

(** The number of iterations in which the command ran. *)
Definition runs (rans : list bool) : nat := length (List.filter (fun b => b) rans).

(** Every observation that sees the file sees the modification time
    [m]. *)
Definition steady (m : Z) (obs : list observation) : Prop :=
  Forall (fun o => stat_ModTime o = None \/ stat_ModTime o = Some m) obs.

Lemma loop_steady_quiet (wait m last : Z) (obs : list observation) :
  steady m obs -> last = 0 \/ last = m ->
  let '(final, rans) := loop wait last obs in
  (final = 0 \/ final = m) /\ runs rans = 0%nat.
Proof.
  intros Hst. revert last. induction Hst as [|o obs Ho _ IH]; intros last Hlast; simpl.
  - done.
  - assert (Hit : exists last', iteration wait last o = (last', false) /\
                                (last' = 0 \/ last' = m)).
    { unfold iteration. destruct Ho as [-> | ->]; [eauto|].
      destruct Hlast as [-> | ->]; simpl.
      - rewrite Z.eqb_refl, andb_false_r. eauto.
      - destruct (IsZero m); rewrite Z.eqb_refl, andb_false_r; eauto. }
    destruct Hit as (last' & -> & Hlast').
    specialize (IH last' Hlast'). destruct (loop wait last' obs) as [final rans].
    done.
Qed.

Lemma loop_steady_keeps (wait m : Z) (obs : list observation) :
  steady m obs ->
  fst (loop wait m obs) = m /\ runs (snd (loop wait m obs)) = 0%nat.
Proof.
  induction 1 as [|o obs Ho _ IH]; simpl; [done|].
  assert (Hit : iteration wait m o = (m, false)).
  { unfold iteration. destruct Ho as [-> | ->]; [done|].
    destruct (IsZero m); by rewrite Z.eqb_refl, andb_false_r. }
  rewrite Hit. destruct (loop wait m obs) as [final rans]. done.
Qed.

(** The command never runs for the file as it is found: as long as
    the file's modification time is the one first seen, whatever the
    clock and however long the wait, no iteration runs the command. *)
Theorem file_as_found_never_triggers
  (ParseDuration : string -> option Z) (command file waitStr : string)
  (m : Z) (obs : list observation) (rans : list bool) :
  steady m obs ->
  run ParseDuration command file waitStr obs = inr rans ->
  runs rans = 0%nat /\ length rans = length obs.
Proof.
  intros Hst. unfold run.
  destruct (String.eqb command ""); [done|]. destruct (String.eqb file ""); [done|].
  destruct (ParseDuration waitStr) as [wait|]; [|done]. intros [= <-].
  pose proof (loop_steady_quiet wait m 0 obs Hst (or_introl eq_refl)) as K.
  split.
  - destruct (loop wait 0 obs). simpl. tauto.
  - clear. generalize 0. induction obs as [|o obs IH]; intros last; simpl; [done|].
    destruct (iteration wait last o) as [last' ran]. specialize (IH last').
    destruct (loop wait last' obs). simpl in *. by rewrite IH.
Qed.

(** One modification triggers at most one run: while the file keeps
    the modification time [m], the command runs at most once, from
    whatever state the loop is in. *)
Theorem at_most_one_run_per_modification
  (wait m last : Z) (obs : list observation) :
  steady m obs ->
  (runs (snd (loop wait last obs)) <= 1)%nat.
Proof.
  intros Hst. revert last. induction Hst as [|o obs Ho Hst IH]; intros last; simpl.
  - unfold runs. simpl. lia.
  - destruct (iteration wait last o) as [last' ran] eqn:Hit.
    destruct ran.
    + assert (last' = m) as ->.
      { unfold iteration in Hit. destruct Ho as [Ho|Ho]; rewrite Ho in Hit; [done|].
        destruct (_ && _); by inversion Hit. }
      pose proof (loop_steady_quiet wait m m obs Hst (or_intror eq_refl)) as K.
      destruct (loop wait m obs) as [final rans]. simpl.
      unfold runs in *. simpl. destruct K as [_ ->]. lia.
    + specialize (IH last'). destruct (loop wait last' obs) as [final rans].
      simpl in *. unfold runs in *. simpl. done.
Qed.

Lemma Sub_ge (wait t u : Z) :
  minDuration < wait <= maxDuration ->
  (wait <=? Sub t u) = (wait <=? t - u).
Proof.
  intros Hw. unfold Sub. simpl.
  destruct (Z.ltb_spec (t - u) minDuration); [|destruct (Z.ltb_spec maxDuration (t - u))];
    destruct (Z.leb_spec wait (t - u)); try lia;
    match goal with |- (?a <=? ?b) = _ => destruct (Z.leb_spec a b) end; lia.
Qed.

(** The command runs only when the file has been left alone for the
    waiting time: an iteration that ran the command saw the file, and
    at least the waiting time had passed since its modification. *)
Theorem runs_only_after_the_wait
  (wait last : Z) (obs : list observation) (i : nat) :
  minDuration < wait <= maxDuration ->
  snd (loop wait last obs) !! i = Some true ->
  exists o m,
    obs !! i = Some o /\ stat_ModTime o = Some m /\ wait <= time_Now o - m.
Proof.
  intros Hw. revert last i. induction obs as [|o obs IH]; intros last i; simpl; [done|].
  destruct (iteration wait last o) as [last' ran] eqn:Hit.
  specialize (IH last'). destruct (loop wait last' obs) as [final rans]. simpl in *.
  destruct i as [|i]; simpl; [|by apply IH].
  intros [= ->]. unfold iteration in Hit.
  destruct (stat_ModTime o) as [m|] eqn:Hm; [|done].
  exists o, m. repeat split; try done.
  destruct (_ <=? _) eqn:Hle; [|done]. rewrite Sub_ge in Hle by done.
  by apply Z.leb_le.
Qed.

(** A modification that settles is picked up exactly once: when the
    loop has run for an earlier time and the file now keeps a new
    modification time [m], and some iteration sees it at least the
    waiting time after [m], the command runs exactly once and [m] is
    recorded. *)
Theorem settled_modification_runs_once
  (wait m last : Z) (obs : list observation) :
  minDuration < wait <= maxDuration ->
  last <> 0 -> last <> m ->
  steady m obs ->
  (exists o, o ∈ obs /\ stat_ModTime o = Some m /\ wait <= time_Now o - m) ->
  runs (snd (loop wait last obs)) = 1%nat /\ fst (loop wait last obs) = m.
Proof.
  intros Hw H0 Hm Hst. induction Hst as [|o obs Ho Hst IH]; intros (o' & Hin & Hs & Hq).
  - by apply elem_of_nil in Hin.
  - simpl. destruct (iteration wait last o) as [last' ran] eqn:Hit.
    unfold iteration in Hit. destruct Ho as [Ho|Ho]; rewrite Ho in Hit.
    + inversion Hit; subst last' ran.
      apply elem_of_cons in Hin as [->|Hin]; [congruence|].
      destruct IH as [IH1 IH2]; [eauto|].
      destruct (loop wait last obs) as [final rans]. simpl in *. done.
    + assert (Hz : IsZero last = false) by by apply Z.eqb_neq.
      rewrite Hz, Sub_ge in Hit by done. simpl in Hit.
      assert (Hne : (last =? m) = false) by by apply Z.eqb_neq.
      rewrite Hne in Hit. simpl in Hit. rewrite andb_true_r in Hit.
      destruct (Z.leb_spec wait (time_Now o - m)) as [Hle|Hgt].
      * inversion Hit; subst last' ran.
        pose proof (loop_steady_keeps wait m obs Hst) as K.
        destruct (loop wait m obs) as [final rans]. simpl in *.
        destruct K as [-> Hr]. unfold runs in *. simpl. by rewrite Hr.
      * inversion Hit; subst last' ran.
        apply elem_of_cons in Hin as [->|Hin]; [lia|].
        destruct IH as [IH1 IH2]; [eauto|].
        destruct (loop wait last obs) as [final rans]. simpl in *. done.
Qed.

End Watch.

(** * Further runs on concrete inputs *)

Module Sample.

(** A directory with a snapshot that loads, one that does not parse,
    and a file that is no snapshot. *)
Definition dir : FS :=
  {[ "profiles/a.pprof" := {| data := "x"; mtime := 1 |};
     "profiles/b.pprof" := {| data := ""; mtime := 2 |};
     "profiles/notes.txt" := {| data := "n"; mtime := 3 |} ]}.

Definition upload_a : Request := Toy.post_upload "pprof" "svc-a" (Some "abc").

(** The world after [svc-a] was uploaded into the empty directory. *)
Definition after_upload : World :=
  fst (ServeHTTP Toy.Parse Toy.PProf Toy.Format Toy.mux_ServeHTTP
         Toy.empty_world Toy.io new_response upload_a).

Definition get (path : string) : Request :=
  {| Method := MethodGet; URL_Path := path; Header := ∅; Form := ∅;
     MultipartFiles := ∅ |}.

(** The file is seen with time 5: too early, then after the wait of 3,
    then much later; once [os.Stat] fails. *)
Definition ticks : list Watch.observation :=
  [ {| Watch.stat_ModTime := Some 5; Watch.time_Now := 6 |};
    {| Watch.stat_ModTime := None; Watch.time_Now := 7 |};
    {| Watch.stat_ModTime := Some 5; Watch.time_Now := 9 |};
    {| Watch.stat_ModTime := Some 5; Watch.time_Now := 20 |} ].

Definition ParseDuration (s : string) : option Z := Some 3.

End Sample.

Lemma Toy_engine_paths (pprof : string) (handlers : gset string) (p : string) :
  Toy.PProf pprof = Some handlers -> p ∈ handlers -> HasPrefix p "/" = true.
Proof.
  intros [= <-] [->%elem_of_singleton| ->%elem_of_singleton]%elem_of_union; reflexivity.
Defined.

Lemma Sample_ticks_steady : Watch.steady 5 Sample.ticks.
Proof.
  unfold Watch.steady, Sample.ticks.
  repeat (apply Forall_cons; split; [simpl; (by left) || (by right)|]).
  apply Forall_nil. done.
Defined.

Lemma Sample_wait_in_range : Watch.minDuration < 3 <= Watch.maxDuration.
Proof. unfold Watch.minDuration, Watch.maxDuration. lia. Defined.


Lemma only_uploads_change_the_world_witness :
  exists w',
    ServeHTTP Toy.Parse Toy.PProf Toy.Format Toy.mux_ServeHTTP Sample.after_upload Toy.io
      new_response (Sample.get "/") = (Sample.after_upload, Replied w').
Proof.
  apply (only_uploads_change_the_world Toy.Parse Toy.PProf Toy.Format Toy.mux_ServeHTTP
           Sample.after_upload Toy.io new_response (Sample.get "/")).
  intros [H _]. vm_compute in H. discriminate.
Defined.

Lemma dispatch_of_other_paths_witness :
  exists w,
    ServeHTTP Toy.Parse Toy.PProf Toy.Format Toy.mux_ServeHTTP Toy.empty_world Toy.io
      new_response (Sample.get "/favicon.ico") = (Toy.empty_world, Replied w) /\
    if HasPrefix (URL_Path (Sample.get "/favicon.ico")) "/profiles/"
    then w = Toy.mux_ServeHTTP (ProfileMux (handler Toy.empty_world)) new_response
               (Sample.get "/favicon.ico")
    else sent_status w = StatusNotFound /\ body w = "".
Proof.
  apply (dispatch_of_other_paths Toy.Parse Toy.PProf Toy.Format Toy.mux_ServeHTTP
           Toy.empty_world Toy.io (Sample.get "/favicon.ico"));
    vm_compute; discriminate.
Defined.

Lemma upload_touches_only_its_file_witness :
  (forall p, p <> upload_path Toy.empty_world Sample.upload_a ->
             disk Sample.after_upload !! p = disk Toy.empty_world !! p) /\
  (disk Sample.after_upload <> disk Toy.empty_world ->
   Header_Get Sample.upload_a "x-upload-token" = UploadToken (handler Toy.empty_world) /\
   forallb (fun c => negb (IsPathSeparator c)) (bytes (FormValue Sample.upload_a "name"))
   = true /\
   Base (upload_path Toy.empty_world Sample.upload_a)
   = FormValue Sample.upload_a "name" +:+ ".pprof").
Proof.
  apply (upload_touches_only_its_file Toy.Parse Toy.PProf Toy.Format Toy.mux_ServeHTTP
           Toy.empty_world Sample.after_upload Toy.io new_response Sample.upload_a
           (snd (ServeHTTP Toy.Parse Toy.PProf Toy.Format Toy.mux_ServeHTTP
                   Toy.empty_world Toy.io new_response Sample.upload_a))).
  apply surjective_pairing.
Defined.

Lemma upload_name_is_profile_id_witness :
  profileID_of (Join "profiles" ("prof_1-2" +:+ ".pprof")) = "prof_1-2".
Proof. apply (upload_name_is_profile_id "profiles" "prof_1-2"). reflexivity. Defined.

Lemma upload_stores_lists_and_mounts_witness :
  exists W' w,
    ServeHTTP Toy.Parse Toy.PProf Toy.Format Toy.mux_ServeHTTP Toy.empty_world Toy.io
      new_response Sample.upload_a = (W', Replied w) /\
    sent_status w = StatusCreated /\
    body w = "/profiles/" +:+ FormValue Sample.upload_a "name" +:+ nl /\
    disk W' = <[ upload_path Toy.empty_world Sample.upload_a
                 := {| data := "abc"; mtime := now Toy.io |} ]> (disk Toy.empty_world) /\
    Permutation (Profiles (handler W'))
      ({| Name := FormValue Sample.upload_a "name"; ModTime := now Toy.io |}
       :: Profiles (handler Toy.empty_world)) /\
    descending (Profiles (handler W')) /\
    ProfileMux (handler W')
    = list_to_set (route (FormValue Sample.upload_a "name") <$> elements ({[ "/"; "/top" ]} : gset string))
      ∪ ProfileMux (handler Toy.empty_world).
Proof.
  apply (upload_stores_lists_and_mounts Toy.Parse Toy.PProf Toy.Format Toy.mux_ServeHTTP
           Toy.empty_world Toy.io Sample.upload_a "abc" "abc" {[ "/"; "/top" ]});
    try reflexivity.
  intros p _ Hin. vm_compute in Hin. discriminate.
Defined.

Lemma upload_of_mounted_name_overwrites_and_aborts_witness :
  exists W',
    ServeHTTP Toy.Parse Toy.PProf Toy.Format Toy.mux_ServeHTTP Sample.after_upload Toy.io
      new_response (Toy.post_upload "pprof" "svc-a" (Some "new")) = (W', Aborted) /\
    disk W' = <[ upload_path Sample.after_upload (Toy.post_upload "pprof" "svc-a" (Some "new"))
                 := {| data := "new"; mtime := now Toy.io |} ]> (disk Sample.after_upload) /\
    Profiles (handler W') = Profiles (handler Sample.after_upload).
Proof.
  apply (upload_of_mounted_name_overwrites_and_aborts Toy.Parse Toy.PProf Toy.Format
           Toy.mux_ServeHTTP Sample.after_upload Toy.io
           (Toy.post_upload "pprof" "svc-a" (Some "new")) "new" "new"
           {[ "/"; "/top" ]} "/"); reflexivity.
Defined.

Lemma Toy_h1_loaded : loaded Toy.Parse Toy.PProf "pprof" [Toy.entry_a] Toy.h1.
Proof.
  apply (loaded_ok Toy.Parse Toy.PProf "pprof" [] Toy.h0 Toy.one_file Toy.io
           "profiles/a.pprof" {| data := "x"; mtime := 1 |} Toy.h1).
  - apply loaded_new.
  - reflexivity.
  - vm_compute. reflexivity.
Defined.


Lemma catalog_entries_are_mounted_witness :
  route (Name Toy.entry_a) "/" ∈ ProfileMux Toy.h1.
Proof.
  apply (catalog_entries_are_mounted Toy.Parse Toy.PProf "/" "pprof" [Toy.entry_a]
           Toy.h1 Toy.entry_a Toy_engine_route Toy_h1_loaded).
  assert (E : Profiles Toy.h1 = [Toy.entry_a]) by (vm_compute; reflexivity).
  rewrite E. by apply list_elem_of_singleton.
Defined.


(** The startup over the sample directory, computed: the snapshot that
    loads is listed, the one that does not parse and the other file
    are not. *)
Example startup_of_sample_dir :
  Glob_pprof Sample.dir "profiles" = ["profiles/a.pprof"; "profiles/b.pprof"] /\
  Profiles (left_by (startup Toy.Parse Toy.PProf Sample.dir (fun _ => Toy.io) "pprof"))
  = [Toy.entry_a].
Proof. split; vm_compute; reflexivity. Qed.

Lemma file_as_found_never_triggers_witness :
  Watch.runs [false; false; false; false] = 0%nat /\
  length [false; false; false; false] = length Sample.ticks.
Proof.
  apply (Watch.file_as_found_never_triggers Sample.ParseDuration "make" "main.go" "3ns"
           5 Sample.ticks [false; false; false; false] Sample_ticks_steady).
  reflexivity.
Defined.

Lemma at_most_one_run_per_modification_witness :
  (Watch.runs (snd (Watch.loop 3 1 Sample.ticks)) <= 1)%nat.
Proof.
  exact (Watch.at_most_one_run_per_modification 3 5 1 Sample.ticks Sample_ticks_steady).
Defined.

Lemma runs_only_after_the_wait_witness :
  exists o m,
    Sample.ticks !! 2%nat = Some o /\ Watch.stat_ModTime o = Some m /\
    3 <= Watch.time_Now o - m.
Proof.
  apply (Watch.runs_only_after_the_wait 3 1 Sample.ticks 2 Sample_wait_in_range).
  reflexivity.
Defined.

Lemma settled_modification_runs_once_witness :
  Watch.runs (snd (Watch.loop 3 1 Sample.ticks)) = 1%nat /\
  fst (Watch.loop 3 1 Sample.ticks) = 5.
Proof.
  apply (Watch.settled_modification_runs_once 3 5 1 Sample.ticks Sample_wait_in_range).
  - discriminate.
  - discriminate.
  - exact Sample_ticks_steady.
  - exists {| Watch.stat_ModTime := Some 5; Watch.time_Now := 9 |}.
    split; [|split; [reflexivity|simpl; lia]].
    apply elem_of_cons. right. apply elem_of_cons. right. apply elem_of_cons. by left.
Defined.

(** * Routes belong to catalog entries *)

Section RouteOwners.

Context {Profile : Type}.
Variable Parse : string -> option Profile.
Variable PProf : Profile -> option (gset string).
Variable Format : Z -> string.
Variable mux_ServeHTTP : ServeMux -> ResponseWriter -> Request -> ResponseWriter.

Hypothesis engine_paths :
  forall pprof handlers p,
    PProf pprof = Some handlers -> p ∈ handlers -> HasPrefix p "/" = true.

(** Every registered pattern is [/profiles/<id><path>] for an [id]
    that is in the catalog. *)
Definition routes_owned (h : Handler) : Prop :=
  forall r, r ∈ ProfileMux h ->
    exists id p, r = route id p /\ separator_free id = true /\
                 HasPrefix p "/" = true /\ id ∈ Name <$> Profiles h.

Lemma LoadProfile_routes_owned (fs : FS) (io : IO) (h : Handler) (path : string) :
  separator_free (profileID_of path) = true ->
  routes_owned h ->
  routes_owned (left_by (LoadProfile Parse PProf fs io h path)).
Proof.
  intros Hsep Hown.
  destruct (LoadProfile_cases Parse PProf fs io h path)
    as [(err & -> & _)|(f & pprof & hs & mux & b & Hs & Ho & Hf & Hp & Hd & Hm & ->)];
    [done|].
  assert (Hnew : forall r, r ∈ mux -> r ∈ ProfileMux h \/
            exists p, r = route (profileID_of path) p /\ HasPrefix p "/" = true).
  { intros r Hr. apply (mount_upper _ _ _ _ _ Hm) in Hr.
    apply elem_of_union in Hr as [Hr|Hr]; [|by left].
    apply elem_of_list_to_set, list_elem_of_fmap in Hr as (p & -> & Hpin).
    right. exists p. split; [done|]. eapply engine_paths; [done|].
    by apply elem_of_elements. }
  destruct b; simpl; intros r Hr.
  - assert (Hnames : forall id, id ∈ Name <$> Profiles h \/ id = profileID_of path ->
              id ∈ Name <$> sort_Slice less (Profiles h ++ [entry_of path f])%list).
    { intros id Hid. rewrite sort_Slice_Permutation, fmap_app, elem_of_app.
      destruct Hid as [?| ->]; [by left|right]. by apply list_elem_of_singleton. }
    destruct (Hnew r Hr) as [Hold|(p & -> & Hsl)].
    + destruct (Hown r Hold) as (id & p & -> & ? & ? & Hin).
      exists id, p. repeat split; try done. apply Hnames. by left.
    + exists (profileID_of path), p. repeat split; try done. apply Hnames. by right.
  - destruct (Hnew r Hr) as [Hold|(p & -> & Hsl)]; [by apply Hown|].
    destruct (mount_panic_inv _ _ _ _ (NoDup_elements hs) Hm) as (q & Hq & Hin).
    destruct (Hown _ Hin) as (id & q' & E & Hsid & Hsl' & Hid).
    apply route_id_inj in E; [| done | done | | done].
    + exists (profileID_of path), p. repeat split; try done. by rewrite E.
    + eapply engine_paths; [done|]. by apply elem_of_elements.
Qed.

Lemma load_all_routes_owned (fs : FS) (io : string -> IO) (paths : list string) :
  forall h,
  (forall path, path ∈ paths -> separator_free (profileID_of path) = true) ->
  routes_owned h ->
  routes_owned (left_by (load_all Parse PProf fs io h paths)).
Proof.
  induction paths as [|path rest IH]; intros h Hsep Hown; simpl; [done|].
  pose proof (LoadProfile_routes_owned fs (io path) h path
                (Hsep path ltac:(by left)) Hown) as K.
  destruct (LoadProfile Parse PProf fs (io path) h path) as [err h'|h']; simpl in K.
  - apply IH; [|done]. intros p Hp. apply Hsep. by right.
  - done.
Qed.

Lemma ServeHTTP_routes_owned (W W' : World) (io : IO) (w : ResponseWriter)
  (r : Request) (out : served) :
  ServeHTTP Parse PProf Format mux_ServeHTTP W io w r = (W', out) ->
  routes_owned (handler W) -> routes_owned (handler W').
Proof.
  intros H Hown. apply ServeHTTP_effect in H as [->|(_ & _ & H)]; [done|].
  apply upload_effect in H as [->|(_ & Hname & f & fs & _ & [-> | ->])]; try done.
  apply LoadProfile_routes_owned; [|done].
  unfold upload_path, separator_free.
  rewrite profileID_of_Join; by apply valid_name_no_separator.
Qed.

Lemma serve_all_routes_owned (rs : list (IO * Request)) :
  forall W W' outs,
  serve_all Parse PProf Format mux_ServeHTTP W rs = (W', outs) ->
  routes_owned (handler W) -> routes_owned (handler W').
Proof.
  induction rs as [|[io r] rs IH]; simpl; intros W W' outs H Hown.
  - by inversion H; subst.
  - destruct (ServeHTTP _ _ _ _ W io new_response r) as [W1 out] eqn:H1.
    destruct (serve_all _ _ _ _ W1 rs) as [W2 outs2] eqn:H2.
    inversion H; subst. eapply IH; [done|]. by eapply ServeHTTP_routes_owned.
Qed.

(** After the startup and any requests, an upload under a name that is
    not in the catalog cannot meet a registered route: when it passes
    both checks, its file is written and parses and the engine accepts
    it, it is answered [201 Created] and its name is in the catalog.
    Uploads under pairwise distinct names, served one after the other,
    therefore all succeed. *)
Theorem upload_under_new_name_succeeds
  (fs0 : FS) (io0 : string -> IO) (tok : string) (rs : list (IO * Request))
  (W : World) (outs : list served)
  (io : IO) (r : Request) (file : string) (pprof : Profile) (handlers : gset string) :
  serve_all Parse PProf Format mux_ServeHTTP
    {| disk := fs0; handler := left_by (startup Parse PProf fs0 io0 tok) |} rs
  = (W, outs) ->
  URL_Path r = "/upload" -> Method r = MethodPost ->
  Header_Get r "x-upload-token" = UploadToken (handler W) ->
  MatchString profileNameRegexp (FormValue r "name") = true ->
  FormFile r "pprof" = Some file ->
  openfile_err io = false -> copy_err io = None ->
  stat_err io = false -> open_err io = false ->
  Parse file = Some pprof -> PProf pprof = Some handlers ->
  FormValue r "name" ∉ Name <$> Profiles (handler W) ->
  exists W' w,
    ServeHTTP Parse PProf Format mux_ServeHTTP W io new_response r = (W', Replied w) /\
    sent_status w = StatusCreated /\
    FormValue r "name" ∈ Name <$> Profiles (handler W').
Proof.
  intros Hrs Hpath Hmeth Htok Hname Hfile Hof Hcp Hst Hop Hparse Hdrv Hnew.
  assert (Hown : routes_owned (handler W)).
  { eapply serve_all_routes_owned; [exact Hrs|]. simpl. unfold startup.
    apply load_all_routes_owned.
    - intros path Hp. by apply Glob_pprof_ids in Hp as [? _].
    - intros r' Hr'. by apply elem_of_empty in Hr'. }
  assert (Hsep : separator_free (FormValue r "name") = true)
    by by apply valid_name_no_separator.
  destruct (mount_fresh (ProfileMux (handler W)) (FormValue r "name") (elements handlers))
    as [mux Hm]; [apply NoDup_elements| |].
  { intros p Hp Hin. destruct (Hown _ Hin) as (id & p' & E & Hsid & Hsl & Hid).
    apply route_id_inj in E; [by subst|done|done| |done].
    eapply engine_paths; [done|]. by apply elem_of_elements. }
  unfold ServeHTTP. rewrite Hpath, Hmeth. simpl String.eqb. cbv iota.
  unfold upload. cbv zeta. fold (upload_path W r).
  rewrite Htok, String.eqb_refl, Hname, Hfile, Hof, Hcp. simpl negb. cbv iota.
  unfold LoadProfile. cbv zeta. rewrite Hst, lookup_insert_eq, Hop. simpl data.
  rewrite Hparse, Hdrv.
  assert (Hid : profileID_of (upload_path W r) = FormValue r "name")
    by by apply profileID_of_Join.
  rewrite !Hid, Hm.
  eexists _, _. split; [reflexivity|]. simpl. split; [done|].
  rewrite sort_Slice_Permutation, fmap_app, elem_of_app. right.
  by apply list_elem_of_singleton.
Qed.

End RouteOwners.

Lemma upload_under_new_name_succeeds_witness :
  exists W' w,
    ServeHTTP Toy.Parse Toy.PProf Toy.Format Toy.mux_ServeHTTP
      (fst (serve_all Toy.Parse Toy.PProf Toy.Format Toy.mux_ServeHTTP
              {| disk := Sample.dir;
                 handler := left_by (startup Toy.Parse Toy.PProf Sample.dir
                                       (fun _ => Toy.io) "pprof") |}
              [(Toy.io, Sample.upload_a)]))
      Toy.io new_response (Toy.post_upload "pprof" "svc-b" (Some "abc"))
    = (W', Replied w) /\
    sent_status w = StatusCreated /\
    FormValue (Toy.post_upload "pprof" "svc-b" (Some "abc")) "name"
      ∈ Name <$> Profiles (handler W').
Proof.
  eapply (upload_under_new_name_succeeds Toy.Parse Toy.PProf Toy.Format
            Toy.mux_ServeHTTP Toy_engine_paths Sample.dir (fun _ => Toy.io) "pprof"
            [(Toy.io, Sample.upload_a)] _ _ Toy.io
            (Toy.post_upload "pprof" "svc-b" (Some "abc")) "abc" "abc"
            {[ "/"; "/top" ]}).
  - apply surjective_pairing.
  - reflexivity.
  - reflexivity.
  - vm_compute. reflexivity.
  - reflexivity.
  - reflexivity.
  - reflexivity.
  - reflexivity.
  - reflexivity.
  - reflexivity.
  - reflexivity.
  - reflexivity.
  - intros Hin. vm_compute in Hin.
    repeat (apply elem_of_cons in Hin as [Hin|Hin]; [discriminate|]).
    by apply elem_of_nil in Hin.
Defined.
